(** * consulting-agent: the JSON extractor and the four-stage pipeline of [main.py]

    A shallow embedding of [src/main.py] and of the parts of the Python
    standard library it calls ([str.replace], [str.strip], [re.search],
    [json.loads], [json.dumps], [json.dump] with an indentation), followed
    by the properties of the extractor [clean_and_parse_json], of the search
    wrapper [tavily_search], of the orchestrator [main] and of the guard
    around its call.

    Conventions.
    - A Python [str] is a list of Unicode code points ([text]).
    - A Python object that the program handles (the result of [json.loads],
      [None], the accumulator dictionary) is a [json] value; [JNull] is [None].
      A dictionary is an association list in insertion order.
    - A float is kept as the literal it was read from: binary floating point
      is not modelled, and the formatting of floats by [json.dumps] is a
      parameter ([float_repr]).
    - The interpreter's resource limits (recursion depth, the limit on the
      number of digits of an integer literal, memory) are not modelled:
      [json.loads] either returns a value or raises [JSONDecodeError], as
      its documentation states.
    - The console, the log and the output file take what is written to
      them: [print], the logger and [json.dump] do not fail.
    - The instruction texts of the four personas and the start-up of the
      module (loading of the keys, creation of the clients) are left out. *)

From Stdlib Require Import String Ascii.
From Stdlib Require Import List NArith ZArith Bool Lia.
Import ListNotations.
Local Open Scope N_scope.

(* ================================================================== *)
(** * Python strings *)

Definition text := list N.

(** A literal: the code points of an ASCII string. *)
Definition py (s : string) : text := map N_of_ascii (list_ascii_of_string s).

(** A literal in which the apostrophe stands for the double quote
    (code point 34), to write JSON text legibly. *)
Definition pyq (s : string) : text :=
  map (fun c => if c =? 39 then 34 else c) (py s).

Fixpoint text_eqb (a b : text) : bool :=
  match a, b with
  | [], [] => true
  | x :: a', y :: b' => (x =? y) && text_eqb a' b'
  | _, _ => false
  end.

(** [s.startswith(p)] *)
Fixpoint starts_with (p s : text) : bool :=
  match p, s with
  | [], _ => true
  | a :: p', b :: s' => (a =? b) && starts_with p' s'
  | _ :: _, [] => false
  end.

(** [str.replace(old, new)] for a non-empty [old]: the occurrences of [old]
    are found from left to right without overlap.  [skip] counts the
    characters of the current occurrence that are still to be dropped. *)
Fixpoint replace_go (old new : text) (skip : nat) (s : text) : text :=
  match s with
  | [] => []
  | c :: s' =>
      match skip with
      | S k => replace_go old new k s'
      | O => if starts_with old s
             then new ++ replace_go old new (pred (length old)) s'
             else c :: replace_go old new O s'
      end
  end.

Definition replace (old new s : text) : text :=
  match old with
  | [] => s   (* not used by the program: an empty pattern is left out *)
  | _ => replace_go old new 0 s
  end.

(** [str.isspace] on one code point: the white space of Unicode. *)
Definition isspace (c : N) : bool :=
  ((9 <=? c) && (c <=? 13)) || ((28 <=? c) && (c <=? 32))
  || (c =? 0x85) || (c =? 0xA0) || (c =? 0x1680)
  || ((0x2000 <=? c) && (c <=? 0x200A))
  || (c =? 0x2028) || (c =? 0x2029) || (c =? 0x202F) || (c =? 0x205F)
  || (c =? 0x3000).

Fixpoint lstrip (s : text) : text :=
  match s with
  | c :: s' => if isspace c then lstrip s' else s
  | [] => []
  end.

Definition rstrip (s : text) : text := rev (lstrip (rev s)).

(** [str.strip()] *)
Definition strip (s : text) : text := rstrip (lstrip s).

(** Code points the program names. *)
Definition LBRACE : N := 123.
Definition RBRACE : N := 125.
Definition BACKTICK : N := 96.

(** The longest prefix of [s] that ends with a closing brace: what
    [.*\}] matches at the start of [s], [.] matching every character
    (DOTALL) and [*] being greedy. *)
Fixpoint longest_close (s : text) : option text :=
  match s with
  | [] => None
  | c :: s' =>
      match longest_close s' with
      | Some m => Some (c :: m)
      | None => if c =? RBRACE then Some [c] else None
      end
  end.

(** [re.search(r'(\{.*\})', s, re.DOTALL)]: group 1 of the leftmost match,
    or [None].  The start positions are tried from left to right. *)
Fixpoint re_search_braces (s : text) : option text :=
  match s with
  | [] => None
  | c :: s' =>
      if c =? LBRACE
      then match longest_close s' with
           | Some m => Some (c :: m)
           | None => re_search_braces s'
           end
      else re_search_braces s'
  end.

(* ================================================================== *)
(** * Exceptions *)

(** The classes of exception the program can meet.  [KeyboardInterrupt]
    and [SystemExit] derive from [BaseException] only; every other class
    derives from [Exception]. *)
Inductive exc_class :=
| KeyboardInterrupt
| SystemExit
| JSONDecodeError
| AttributeError
| IndexError
| EOFError
| OtherError (name : text).

Record exn := { exn_class : exc_class; exn_msg : text }.

(** [str(e)] *)
Definition str_exn (e : exn) : text := exn_msg e.

Definition isinstance_Exception (e : exn) : bool :=
  match exn_class e with
  | KeyboardInterrupt | SystemExit => false
  | _ => true
  end.

Definition isinstance_JSONDecodeError (e : exn) : bool :=
  match exn_class e with
  | JSONDecodeError => true
  | _ => false
  end.

Inductive outcome (A : Type) :=
| Ret (a : A)
| Raise (e : exn).
Arguments Ret {A} a.
Arguments Raise {A} e.

(* ================================================================== *)
(** * JSON values, [json.loads] and [json.dumps] *)

Unset Elimination Schemes.
Inductive json :=
| JNull
| JBool (b : bool)
| JInt (z : Z)
| JFloat (lit : text)
| JStr (s : text)
| JArr (l : list json)
| JObj (d : list (text * json)).
Set Elimination Schemes.

Definition pydict := list (text * json).

(** [d[k] = v]: an existing key keeps its place and takes the new value, a
    new key goes to the end. *)
Fixpoint dict_set (k : text) (v : json) (d : pydict) : pydict :=
  match d with
  | [] => [(k, v)]
  | (k', v') :: d' =>
      if text_eqb k k' then (k, v) :: d' else (k', v') :: dict_set k v d'
  end.

Fixpoint dict_get (k : text) (d : pydict) : option json :=
  match d with
  | [] => None
  | (k', v') :: d' => if text_eqb k k' then Some v' else dict_get k d'
  end.

(** [dict(pairs)] *)
Definition dict_of_pairs (pairs : list (text * json)) : pydict :=
  fold_left (fun d kv => dict_set (fst kv) (snd kv) d) pairs [].

(** The digits of a float literal before its exponent. *)
Fixpoint mantissa (lit : text) : text :=
  match lit with
  | [] => []
  | c :: lit' => if (c =? 101) || (c =? 69) then [] else c :: mantissa lit'
  end.

(** Truth value of an object, as tested by [if x:].  [main] applies the
    test to what [clean_and_parse_json] returns, which is [None] or a
    dictionary (lemma [extraction_success]); the other cases are given for
    completeness, and the one of a float, which holds when the mantissa has a
    digit other than zero, leaves underflow to zero aside. *)
Definition truthy (v : json) : bool :=
  match v with
  | JNull => false
  | JBool b => b
  | JInt z => negb (Z.eqb z 0)
  | JFloat lit =>
      existsb (fun c => (49 <=? c) && (c <=? 57)) (mantissa lit)
      || starts_with (py "NaN") lit || starts_with (py "Inf") lit
      || starts_with (py "-Inf") lit
  | JStr s => match s with [] => false | _ => true end
  | JArr l => match l with [] => false | _ => true end
  | JObj d => match d with [] => false | _ => true end
  end.

Module Decoder.

(** The decoder of [json.loads] as a machine that reads one character at a
    time.  It accepts the texts the scanner of the [json] module accepts
    (strict mode, with the constants [NaN], [Infinity], [-Infinity]) and
    builds the same values. *)

Inductive strmode :=
| SPlain                      (* between characters of the string *)
| SEsc                        (* after a backslash *)
| SUni (k : nat) (u : N).     (* after [\u] and [k] hexadecimal digits of value [u] *)

Inductive numstate :=
| NSign                       (* "-" *)
| NZero                       (* "0" *)
| NInt (n : N)                (* a non-zero integer part *)
| NDot                        (* integer part and "." *)
| NFrac                       (* digits after the point *)
| NE                          (* "e" or "E" *)
| NESign                      (* sign of the exponent *)
| NExp.                       (* digits of the exponent *)

Inductive literal := LitTrue | LitFalse | LitNull | LitNaN | LitInf | LitNegInf.

(** The characters of a constant after the one that announced it. *)
Definition lit_rest (l : literal) : text :=
  match l with
  | LitTrue => py "rue"
  | LitFalse => py "alse"
  | LitNull => py "ull"
  | LitNaN => py "aN"
  | LitInf | LitNegInf => py "nfinity"
  end.

Definition lit_value (l : literal) : json :=
  match l with
  | LitTrue => JBool true
  | LitFalse => JBool false
  | LitNull => JNull
  | LitNaN => JFloat (py "NaN")
  | LitInf => JFloat (py "Infinity")
  | LitNegInf => JFloat (py "-Infinity")
  end.

Inductive frame :=
| FArr (acc : list json)                       (* in an array, after these items *)
| FObjK (acc : list (text * json))             (* in an object, before a key *)
| FObjV (acc : list (text * json)) (key : text). (* in an object, before the value of [key] *)

Inductive lex :=
| LValue                      (* a value must start *)
| LArrFirst                   (* after "[": a value or "]" *)
| LObjFirst                   (* after "{": a key or "}" *)
| LObjKey                     (* after "," in an object: a key *)
| LStr (iskey : bool) (acc : text) (hi : option N) (m : strmode)
| LColon (key : text)         (* after a key: ":" *)
| LNum (neg : bool) (ns : numstate) (lit : text)
| LLit (l : literal) (k : nat)
| LAfter (v : json)           (* after a complete value *)
| LErr.

Definition state := (lex * list frame)%type.

Definition err : state := (LErr, []).

Definition is_ws (c : N) : bool :=
  (c =? 32) || (c =? 9) || (c =? 10) || (c =? 13).

Definition digit (c : N) : option N :=
  if (48 <=? c) && (c <=? 57) then Some (c - 48) else None.

Definition hexval (c : N) : option N :=
  if (48 <=? c) && (c <=? 57) then Some (c - 48)
  else if (97 <=? c) && (c <=? 102) then Some (c - 87)
  else if (65 <=? c) && (c <=? 70) then Some (c - 55)
  else None.

Definition is_e (c : N) : bool := (c =? 101) || (c =? 69).

(** The character after a backslash, [u] apart. *)
Definition unescape (c : N) : option N :=
  if c =? 34 then Some 34
  else if c =? 92 then Some 92
  else if c =? 47 then Some 47
  else if c =? 98 then Some 8
  else if c =? 102 then Some 12
  else if c =? 110 then Some 10
  else if c =? 114 then Some 13
  else if c =? 116 then Some 9
  else None.

Definition is_high (u : N) : bool := (0xD800 <=? u) && (u <=? 0xDBFF).
Definition is_low (u : N) : bool := (0xDC00 <=? u) && (u <=? 0xDFFF).
Definition join_surrogates (h l : N) : N :=
  0x10000 + (h - 0xD800) * 1024 + (l - 0xDC00).

(** What a complete value [v] meets next. *)
Definition after_value (v : json) (K : list frame) (c : N) : state :=
  if is_ws c then (LAfter v, K)
  else match K with
       | FArr acc :: K' =>
           if c =? 44 then (LValue, FArr (acc ++ [v]) :: K')
           else if c =? 93 then (LAfter (JArr (acc ++ [v])), K')
           else err
       | FObjV acc key :: K' =>
           if c =? 44 then (LObjKey, FObjK (acc ++ [(key, v)]) :: K')
           else if c =? RBRACE
                then (LAfter (JObj (dict_of_pairs (acc ++ [(key, v)]))), K')
                else err
       | _ => err
       end.

Definition start_value (K : list frame) (c : N) : state :=
  if c =? LBRACE then (LObjFirst, FObjK [] :: K)
  else if c =? 91 then (LArrFirst, FArr [] :: K)
  else if c =? 34 then (LStr false [] None SPlain, K)
  else if c =? 45 then (LNum true NSign [c], K)
  else if c =? 48 then (LNum false NZero [c], K)
  else match digit c with
       | Some d => (LNum false (NInt d) [c], K)
       | None =>
           if c =? 116 then (LLit LitTrue 0, K)
           else if c =? 102 then (LLit LitFalse 0, K)
           else if c =? 110 then (LLit LitNull 0, K)
           else if c =? 78 then (LLit LitNaN 0, K)
           else if c =? 73 then (LLit LitInf 0, K)
           else err
       end.

Definition str_done (iskey : bool) (s : text) (K : list frame) : state :=
  if iskey then (LColon s, K) else (LAfter (JStr s), K).

(** A high surrogate written as an escape waits in [hi] for a low one. *)
Definition flush (acc : text) (hi : option N) : text :=
  match hi with
  | Some h => acc ++ [h]
  | None => acc
  end.

Definition emit (iskey : bool) (acc : text) (u : N) (K : list frame) : state :=
  if is_high u then (LStr iskey acc (Some u) SPlain, K)
  else (LStr iskey (acc ++ [u]) None SPlain, K).

Definition str_step (iskey : bool) (acc : text) (hi : option N) (m : strmode)
    (K : list frame) (c : N) : state :=
  match m with
  | SPlain =>
      if c =? 34 then str_done iskey (flush acc hi) K
      else if c =? 92 then (LStr iskey acc hi SEsc, K)
      else if c <? 32 then err
      else (LStr iskey (flush acc hi ++ [c]) None SPlain, K)
  | SEsc =>
      if c =? 117 then (LStr iskey acc hi (SUni 0 0), K)
      else match unescape c with
           | Some x => (LStr iskey (flush acc hi ++ [x]) None SPlain, K)
           | None => err
           end
  | SUni k u =>
      match hexval c with
      | None => err
      | Some d =>
          let u' := 16 * u + d in
          match k with
          | 3%nat =>
              match hi with
              | Some h =>
                  if is_low u'
                  then (LStr iskey (acc ++ [join_surrogates h u']) None SPlain, K)
                  else emit iskey (acc ++ [h]) u' K
              | None => emit iskey acc u' K
              end
          | _ => (LStr iskey acc hi (SUni (S k) u'), K)
          end
      end
  end.

(** The value of a number that may end here: an integer when it has neither
    fraction nor exponent. *)
Definition num_value (neg : bool) (ns : numstate) (lit : text) : option json :=
  match ns with
  | NZero => Some (JInt 0)
  | NInt n => Some (JInt (if neg then - Z.of_N n else Z.of_N n))
  | NFrac | NExp => Some (JFloat lit)
  | _ => None
  end.

Definition num_step (neg : bool) (ns : numstate) (lit : text)
    (K : list frame) (c : N) : state :=
  let go ns' := (LNum neg ns' (lit ++ [c]), K) in
  let stop := match num_value neg ns lit with
              | Some v => after_value v K c
              | None => err
              end in
  match ns with
  | NSign =>
      if c =? 48 then go NZero
      else match digit c with
           | Some d => go (NInt d)
           | None => if c =? 73 then (LLit LitNegInf 0, K) else err
           end
  | NZero =>
      if c =? 46 then go NDot else if is_e c then go NE else stop
  | NInt n =>
      match digit c with
      | Some d => go (NInt (10 * n + d))
      | None => if c =? 46 then go NDot else if is_e c then go NE else stop
      end
  | NDot =>
      match digit c with Some _ => go NFrac | None => err end
  | NFrac =>
      match digit c with
      | Some _ => go NFrac
      | None => if is_e c then go NE else stop
      end
  | NE =>
      match digit c with
      | Some _ => go NExp
      | None => if (c =? 43) || (c =? 45) then go NESign else err
      end
  | NESign =>
      match digit c with Some _ => go NExp | None => err end
  | NExp =>
      match digit c with Some _ => go NExp | None => stop end
  end.

Definition lit_step (l : literal) (k : nat) (K : list frame) (c : N) : state :=
  match nth_error (lit_rest l) k with
  | Some h =>
      if c =? h
      then if Nat.eqb (S k) (length (lit_rest l))
           then (LAfter (lit_value l), K)
           else (LLit l (S k), K)
      else err
  | None => err
  end.

Definition step (st : state) (c : N) : state :=
  let (l, K) := st in
  match l with
  | LValue => if is_ws c then st else start_value K c
  | LArrFirst =>
      if is_ws c then st
      else if c =? 93
           then match K with
                | FArr acc :: K' => (LAfter (JArr acc), K')
                | _ => err
                end
           else start_value K c
  | LObjFirst =>
      if is_ws c then st
      else if c =? 34 then (LStr true [] None SPlain, K)
      else if c =? RBRACE
           then match K with
                | FObjK acc :: K' => (LAfter (JObj (dict_of_pairs acc)), K')
                | _ => err
                end
           else err
  | LObjKey =>
      if is_ws c then st
      else if c =? 34 then (LStr true [] None SPlain, K)
      else err
  | LStr iskey acc hi m => str_step iskey acc hi m K c
  | LColon key =>
      if is_ws c then st
      else if c =? 58
           then match K with
                | FObjK acc :: K' => (LValue, FObjV acc key :: K')
                | _ => err
                end
           else err
  | LNum neg ns lit => num_step neg ns lit K c
  | LLit l k => lit_step l k K c
  | LAfter v => after_value v K c
  | LErr => err
  end.

Definition run (st : state) (s : text) : state := fold_left step s st.

Definition init : state := (LValue, []).

(** The message of the decoder's error is not modelled. *)
Definition decode_error : exn :=
  {| exn_class := JSONDecodeError; exn_msg := py "Expecting value" |}.

(** At the end of the text: one complete value and nothing else. *)
Definition finish (st : state) : outcome json :=
  match st with
  | (LAfter v, []) => Ret v
  | (LNum neg ns lit, []) =>
      match num_value neg ns lit with
      | Some v => Ret v
      | None => Raise decode_error
      end
  | _ => Raise decode_error
  end.

End Decoder.

(** [json.loads(s)] for a [str] argument. *)
Definition loads (s : text) : outcome json :=
  Decoder.finish (Decoder.run Decoder.init s).

Module Encoder.

Definition hexdigit (d : N) : N := if d <? 10 then 48 + d else 87 + d.

(** ['{0:04x}'.format(u)] for [u < 0x10000] *)
Definition hex4 (u : N) : text :=
  [hexdigit (u / 4096 mod 16); hexdigit (u / 256 mod 16);
   hexdigit (u / 16 mod 16); hexdigit (u mod 16)].

Definition esc_u (u : N) : text := 92 :: 117 :: hex4 u.

(** One character of a string under [ensure_ascii]: the printable ASCII
    characters stand for themselves, quote and backslash apart. *)
Definition encode_char (c : N) : text :=
  if c =? 34 then [92; 34]
  else if c =? 92 then [92; 92]
  else if c =? 10 then [92; 110]
  else if c =? 13 then [92; 114]
  else if c =? 9 then [92; 116]
  else if c =? 12 then [92; 102]
  else if c =? 8 then [92; 98]
  else if (32 <=? c) && (c <=? 126) then [c]
  else if c <? 0x10000 then esc_u c
  else let v := c - 0x10000 in
       esc_u (0xD800 + v / 1024) ++ esc_u (0xDC00 + v mod 1024).

Definition encode_str (s : text) : text :=
  34 :: flat_map encode_char s ++ [34].

(** The decimal digits of [n], the most significant first. *)
Fixpoint digits_fuel (fuel : nat) (n : N) : text :=
  match fuel with
  | O => []
  | S f => (if n <? 10 then [] else digits_fuel f (n / 10)) ++ [48 + n mod 10]
  end.

Definition str_of_N (n : N) : text := digits_fuel (S (N.size_nat n)) n.

(** [str(z)] for an [int] *)
Definition str_of_Z (z : Z) : text :=
  match z with
  | Zneg p => 45 :: str_of_N (Npos p)
  | _ => str_of_N (Z.to_N z)
  end.

End Encoder.

Section Dumps.

(** [repr] of the float that a literal denotes. *)
Variable float_repr : text -> text.

(** [json.dumps(v)] with the default options: separators [", "] and
    [": "], [ensure_ascii], keys in the order of the dictionary. *)
Fixpoint dumps (v : json) : text :=
  match v with
  | JNull => py "null"
  | JBool true => py "true"
  | JBool false => py "false"
  | JInt z => Encoder.str_of_Z z
  | JFloat lit => float_repr lit
  | JStr s => Encoder.encode_str s
  | JArr l =>
      91 :: (fix items (l : list json) : text :=
               match l with
               | [] => []
               | x :: l' =>
                   match l' with
                   | [] => dumps x
                   | _ => dumps x ++ [44; 32] ++ items l'
                   end
               end) l ++ [93]
  | JObj d =>
      LBRACE :: (fix members (d : list (text * json)) : text :=
                match d with
                | [] => []
                | (k, x) :: d' =>
                    match d' with
                    | [] => Encoder.encode_str k ++ [58; 32] ++ dumps x
                    | _ => Encoder.encode_str k ++ [58; 32] ++ dumps x
                           ++ [44; 32] ++ members d'
                    end
                end) d ++ [RBRACE]
  end.

(** The items of a list and the members of a dictionary as [dumps] writes
    them. *)
Definition dumps_items : list json -> text :=
  fix items (l : list json) : text :=
    match l with
    | [] => []
    | x :: l' =>
        match l' with
        | [] => dumps x
        | _ => dumps x ++ [44; 32] ++ items l'
        end
    end.

Definition dumps_members : list (text * json) -> text :=
  fix members (d : list (text * json)) : text :=
    match d with
    | [] => []
    | (k, x) :: d' =>
        match d' with
        | [] => Encoder.encode_str k ++ [58; 32] ++ dumps x
        | _ => Encoder.encode_str k ++ [58; 32] ++ dumps x
               ++ [44; 32] ++ members d'
        end
    end.

End Dumps.

Section DumpsIndent.

Variable float_repr : text -> text.

(** A new line and the indentation of a level, two spaces each. *)
Definition newline_indent (level : nat) : text :=
  10 :: repeat 32 (2 * level).

(** [json.dumps(v, indent=2)]: the items of a list and the members of a
    dictionary that is not empty stand on lines of their own, indented by
    their depth and separated by a comma; a key and its value are separated
    by a colon and a space.  A scalar, an empty list and an empty dictionary
    are written as [dumps] writes them. *)
Fixpoint dumps_indent (level : nat) (v : json) : text :=
  match v with
  | JArr ((_ :: _) as l) =>
      91 :: newline_indent (S level)
      ++ (fix items (l : list json) : text :=
            match l with
            | [] => []
            | x :: l' =>
                match l' with
                | [] => dumps_indent (S level) x
                | _ => dumps_indent (S level) x
                       ++ 44 :: newline_indent (S level) ++ items l'
                end
            end) l
      ++ newline_indent level ++ [93]
  | JObj ((_ :: _) as d) =>
      LBRACE :: newline_indent (S level)
      ++ (fix members (d : list (text * json)) : text :=
            match d with
            | [] => []
            | (k, x) :: d' =>
                match d' with
                | [] => Encoder.encode_str k ++ [58; 32]
                        ++ dumps_indent (S level) x
                | _ => Encoder.encode_str k ++ [58; 32]
                       ++ dumps_indent (S level) x
                       ++ 44 :: newline_indent (S level) ++ members d'
                end
            end) d
      ++ newline_indent level ++ [RBRACE]
  | _ => dumps float_repr v
  end.

(** The items and the members as [dumps_indent] writes them at a level. *)
Definition indent_items (level : nat) : list json -> text :=
  fix items (l : list json) : text :=
    match l with
    | [] => []
    | x :: l' =>
        match l' with
        | [] => dumps_indent level x
        | _ => dumps_indent level x ++ 44 :: newline_indent level ++ items l'
        end
    end.

Definition indent_members (level : nat) : list (text * json) -> text :=
  fix members (d : list (text * json)) : text :=
    match d with
    | [] => []
    | (k, x) :: d' =>
        match d' with
        | [] => Encoder.encode_str k ++ [58; 32] ++ dumps_indent level x
        | _ => Encoder.encode_str k ++ [58; 32] ++ dumps_indent level x
               ++ 44 :: newline_indent level ++ members d'
        end
    end.

(** The text that [json.dump(doc, f, indent=2)] writes into [f]. *)
Definition dump_text (doc : json) : text := dumps_indent 0 doc.

End DumpsIndent.

(** [p] holds of [v] and of every value inside [v]. *)
Fixpoint json_all (p : json -> bool) (v : json) : bool :=
  p v
  && match v with
     | JArr l => forallb (json_all p) l
     | JObj d => forallb (fun kv => json_all p (snd kv)) d
     | _ => true
     end.

(** Each key occurs once. *)
Fixpoint distinct_keys (d : pydict) : bool :=
  match d with
  | [] => true
  | (k, _) :: d' =>
      match dict_get k d' with
      | None => distinct_keys d'
      | Some _ => false
      end
  end.


(* ================================================================== *)
(** * Effects: console, log, files, collaborators *)

Inductive level := DEBUG | ERROR.

(** The four personas ([Agent(...)]); their instruction texts are
    configuration and are left out. *)
Inductive agent :=
| info_extractor
| pain_point_analyzer
| industry_challenges_identifier
| solution_reporter.

Definition agent_name (a : agent) : text :=
  match a with
  | info_extractor => py "Info Extractor"
  | pain_point_analyzer => py "Pain Point Analyzer"
  | industry_challenges_identifier => py "Industry Challenges Identifier"
  | solution_reporter => py "Solution Reporter"
  end.

Definition agent_model (a : agent) : text := py "gpt-4o".

(** A message of a conversation; [content] may be [None] in a response. *)
Record message := { role : text; content : option text }.

Record response := { messages : list message }.

Inductive event :=
| Print (line : text)                       (* [print] *)
| Log (lvl : level) (msg : text)            (* [logger.debug], [logger.error] *)
| LogException (msg : text) (e : exn)       (* [logger.exception]: message and traceback *)
| Input (prompt : text)                     (* [input] *)
| ClientRun (a : agent) (msgs : list message)   (* [client.run] *)
| Search (query : text)                     (* [tavily_client.search] *)
| Dump (path : text) (doc : json).          (* [json.dump] into a file opened with ['w'] *)

(** What the world outside the program answers. *)
Record environment := {
  client_run : agent -> list message -> outcome response;
  input : text -> outcome text;
  tavily_client_search : text -> text -> bool -> N -> text -> outcome json
}.

(** The state a run acts on: what it has done so far, the dictionary
    [combined_output] of [main], and every value this dictionary has had. *)
Record world := {
  trace : list event;
  combined_output : pydict;
  co_history : list pydict
}.

Definition world0 : world :=
  {| trace := []; combined_output := []; co_history := [] |}.

Definition M (A : Type) : Type := world -> outcome A * world.

Definition ret {A} (a : A) : M A := fun w => (Ret a, w).

Definition raise {A} (e : exn) : M A := fun w => (Raise e, w).

Definition bind {A B} (m : M A) (f : A -> M B) : M B :=
  fun w => match m w with
           | (Ret a, w') => f a w'
           | (Raise e, w') => (Raise e, w')
           end.

Notation "x <- m ;; k" := (bind m (fun x => k))
  (at level 61, m at next level, right associativity).
Notation "m ;; k" := (bind m (fun _ => k))
  (at level 61, right associativity).

(** [try: m except C as e: handler], where [catches e] tells whether [e] is
    an instance of [C]. *)
Definition try_except {A} (catches : exn -> bool) (m : M A)
    (handler : exn -> M A) : M A :=
  fun w => match m w with
           | (Raise e, w') => if catches e then handler e w' else (Raise e, w')
           | r => r
           end.

Definition record_event (ev : event) (w : world) : world :=
  {| trace := trace w ++ [ev];
     combined_output := combined_output w;
     co_history := co_history w |}.

Definition effect (ev : event) : M unit := fun w => (Ret tt, record_event ev w).

(** A call to the outside: the call is recorded, the answer is the
    environment's. *)
Definition external {A} (ev : event) (answer : outcome A) : M A :=
  fun w => (answer, record_event ev w).

Definition print (line : text) : M unit := effect (Print line).
Definition logger_debug (msg : text) : M unit := effect (Log DEBUG msg).
Definition logger_error (msg : text) : M unit := effect (Log ERROR msg).
Definition logger_exception (msg : text) (e : exn) : M unit :=
  effect (LogException msg e).

(* ================================================================== *)
(** * [tavily_search] *)

Section Program.

Variable float_repr : text -> text.
Variable env : environment.

Definition tavily_search (query : text) : M json :=
  try_except isinstance_Exception
    (external (Search query)
       (tavily_client_search env query (py "advanced") true 10
          (py "relevance_and_recency")))
    (fun e =>
       logger_error (py "Tavily search error: " ++ str_exn e);;
       ret (JObj [(py "error", JStr (str_exn e))])).

(* ================================================================== *)
(** * [clean_and_parse_json] *)

Definition FENCE_JSON : text := py "```json".
Definition FENCE : text := py "```".

(** [raw_content.replace('```json', '').replace('```', '').strip()] *)
Definition clean (raw_content : text) : text :=
  strip (replace FENCE [] (replace FENCE_JSON [] raw_content)).

Definition clean_and_parse_json (raw_content : text) : M json :=
  let clean_content := clean raw_content in
  match re_search_braces clean_content with
  | Some json_content =>
      print (py "Extracted JSON content: "
             ++ (if Nat.ltb 500 (length json_content)
                 then firstn 500 json_content ++ py "..."
                 else json_content));;
      logger_debug (py "Extracted JSON content: " ++ json_content);;
      try_except isinstance_JSONDecodeError
        (fun w => (loads json_content, w))
        (fun e =>
           print (py "JSON Decode Error: " ++ str_exn e);;
           print (py "Problematic content: " ++ firstn 500 json_content
                  ++ py "...");;
           logger_error (py "JSON Decode Error: " ++ str_exn e);;
           logger_error (py "Problematic content: " ++ json_content);;
           ret JNull)
  | None =>
      print (py "No JSON object found in the content");;
      logger_error (py "No JSON object found. Raw content: " ++ clean_content);;
      ret JNull
  end.

(* ================================================================== *)
(** * [main] *)

Definition user (t : text) : message :=
  {| role := py "user"; content := Some t |}.
Definition system (t : text) : message :=
  {| role := py "system"; content := Some t |}.

(** [response.messages[-1]["content"]] *)
Definition last_content (r : response) : M (option text) :=
  match rev (messages r) with
  | [] => raise {| exn_class := IndexError;
                   exn_msg := py "list index out of range" |}
  | m :: _ => ret (content m)
  end.

(** The text of [raw_content] inside an f-string. *)
Definition str_content (raw_content : option text) : text :=
  match raw_content with
  | Some t => t
  | None => py "None"
  end.

(** [clean_and_parse_json(raw_content)] when [raw_content] may be [None],
    which has no method [replace]. *)
Definition parse_content (raw_content : option text) : M json :=
  match raw_content with
  | Some t => clean_and_parse_json t
  | None => raise {| exn_class := AttributeError;
                     exn_msg := py "'NoneType' object has no attribute 'replace'" |}
  end.

(** [combined_output = {}] *)
Definition new_combined_output : M unit :=
  fun w => (Ret tt, {| trace := trace w;
                       combined_output := [];
                       co_history := co_history w ++ [[]] |}).

(** [combined_output[k] = v] *)
Definition setitem (k : text) (v : json) : M unit :=
  fun w => let d := dict_set k v (combined_output w) in
           (Ret tt, {| trace := trace w;
                       combined_output := d;
                       co_history := co_history w ++ [d] |}).

Definition get_combined_output : M pydict :=
  fun w => (Ret (combined_output w), w).

Definition OUTPUT_FILE : text := py "combined_analysis.json".

(** [with open('combined_analysis.json', 'w') as f:
       json.dump(combined_output, f, indent=2)] *)
Definition save_combined_output : M unit :=
  fun w => (Ret tt, record_event (Dump OUTPUT_FILE (JObj (combined_output w))) w).

Definition PARSE_ERROR_PLACEHOLDER : json :=
  JObj [(py "error", JStr (py "Failed to parse"))].

(** How the body of the [try] statement ends when it does not raise: at a
    [return], or at its last statement. *)
Inductive control := Returned | Completed.

(** The conversations handed to [client.run]. *)
Definition info_messages (company_url : text) : list message :=
  [user (py "Extract detailed info from: " ++ company_url)].

Definition pain_messages (company_info : json) : list message :=
  [system (py "Use the following company info for context:");
   user (dumps float_repr company_info);
   user (py "Analyze pain points and desired outcomes based on this information. Use Tavily to search for additional relevant information.")].

Definition challenges_messages (company_info pain_points : json)
    : list message :=
  [system (py "Use the following information for context:");
   user (dumps float_repr
           (JObj [(py "company_info", company_info);
                  (py "pain_points", pain_points)]));
   user (py "Identify industry challenges based on this information. Use Tavily to search for additional relevant information. Ensure your response is a valid JSON object.")].

Definition solution_messages (combined_output : pydict)
    (selling_company : text) : list message :=
  [system (py "Use the following information for context:");
   user (dumps float_repr (JObj combined_output));
   user (py "Recommend solutions from " ++ selling_company
         ++ py " based on this information. Use Tavily to search for specific solutions and case studies from "
         ++ selling_company ++ py ".")].

Definition URL_PROMPT : text :=
  py "Please enter the customer's company website URL: ".
Definition VENDOR_PROMPT : text :=
  10 :: py "What company are you selling for? ".

(** [client.run(agent, messages)] *)
Definition run_agent (a : agent) (msgs : list message) : M response :=
  external (ClientRun a msgs) (client_run env a msgs).

(** [input(prompt)] *)
Definition read_input (prompt : text) : M text :=
  external (Input prompt) (input env prompt).

Definition main_try (company_url : text) : M control :=
  (* Run Info Extractor *)
  logger_debug (py "Running Info Extractor");;
  info_response <- run_agent info_extractor (info_messages company_url);;
  raw_content <- last_content info_response;;
  logger_debug (py "Raw Info Extractor output: " ++ str_content raw_content);;
  company_info <- parse_content raw_content;;
  if truthy company_info then
    setitem (py "company_info") company_info;;
    (* Run Pain Point Analyzer *)
    logger_debug (py "Running Pain Point Analyzer");;
    pain_response <-
      run_agent pain_point_analyzer (pain_messages company_info);;
    raw_content <- last_content pain_response;;
    logger_debug (py "Raw Pain Point Analyzer output: "
                  ++ str_content raw_content);;
    pain_points <- parse_content raw_content;;
    if truthy pain_points then
      setitem (py "pain_points") pain_points;;
      (* Run Industry Challenges Identifier *)
      logger_debug (py "Running Industry Challenges Identifier");;
      challenges_response <-
        run_agent industry_challenges_identifier
          (challenges_messages company_info pain_points);;
      raw_content <- last_content challenges_response;;
      logger_debug (py "Raw Industry Challenges Identifier output: "
                    ++ str_content raw_content);;
      industry_challenges <- parse_content raw_content;;
      (if truthy industry_challenges then
         setitem (py "industry_challenges") industry_challenges
       else
         print (py "Failed to parse industry challenges. Please check the logs and try again.");;
         logger_error (py "Failed to parse industry challenges");;
         (* Instead of returning, we'll continue with the process *)
         setitem (py "industry_challenges") PARSE_ERROR_PLACEHOLDER);;
      (* Get selling company *)
      selling_company <- read_input VENDOR_PROMPT;;
      logger_debug (py "User input selling company: " ++ selling_company);;
      setitem (py "selling_company") (JStr selling_company);;
      (* Run Solution Reporter *)
      logger_debug (py "Running Solution Reporter");;
      d <- get_combined_output;;
      solution_response <-
        run_agent solution_reporter (solution_messages d selling_company);;
      raw_content <- last_content solution_response;;
      logger_debug (py "Raw Solution Reporter output: "
                    ++ str_content raw_content);;
      solutions <- parse_content raw_content;;
      if truthy solutions then
        setitem (py "solutions") solutions;;
        (* Save the combined output to a JSON file *)
        save_combined_output;;
        print (10 :: py "Combined analysis has been saved to 'combined_analysis.json'");;
        ret Completed
      else
        print (py "Failed to parse solutions. Please check the logs and try again.");;
        ret Returned
    else
      print (py "Failed to parse pain points. Please check the logs and try again.");;
      ret Returned
  else
    print (py "Failed to parse company info. Please check the logs and try again.");;
    ret Returned.

Definition main_except (e : exn) : M control :=
  print (py "An unexpected error occurred: " ++ str_exn e);;
  logger_error (py "Unexpected error: " ++ str_exn e);;
  logger_exception (py "Exception details:") e;;
  ret Completed.

Definition main : M unit :=
  logger_debug (py "Starting main function");;
  print (py "Welcome to the IT Solutions Sales Team!");;
  company_url <- read_input URL_PROMPT;;
  logger_debug (py "User input company URL: " ++ company_url);;
  new_combined_output;;
  c <- try_except isinstance_Exception (main_try company_url) main_except;;
  match c with
  | Returned => ret tt
  | Completed =>
      (* Save whatever we have in combined_output, even if there were errors *)
      save_combined_output;;
      print (10 :: py "Analysis has been saved to 'combined_analysis.json'")
  end.

(** [if __name__ == "__main__":] *)
Definition script : M unit :=
  try_except isinstance_Exception main
    (fun e =>
       print (py "An error occurred in main: " ++ str_exn e);;
       logger_exception (py "An error occurred in main: " ++ str_exn e) e).

End Program.

(* ================================================================== *)
(** * Observations on a run *)

(** The document in [combined_analysis.json] after the run: the last one
    written, since the file is opened with ['w']. *)
Fixpoint persisted_in (t : list event) (cur : option json) : option json :=
  match t with
  | [] => cur
  | Dump _ doc :: t' => persisted_in t' (Some doc)
  | _ :: t' => persisted_in t' cur
  end.

Definition persisted (w : world) : option json := persisted_in (trace w) None.

Definition is_run_of (a : agent) (ev : event) : bool :=
  match ev, a with
  | ClientRun info_extractor _, info_extractor => true
  | ClientRun pain_point_analyzer _, pain_point_analyzer => true
  | ClientRun industry_challenges_identifier _, industry_challenges_identifier => true
  | ClientRun solution_reporter _, solution_reporter => true
  | _, _ => false
  end.

(** Stage [a] was executed: its persona was run. *)
Definition executed (a : agent) (w : world) : bool :=
  existsb (is_run_of a) (trace w).

(** The documents written into the output file, in order. *)
Fixpoint written (t : list event) : list json :=
  match t with
  | [] => []
  | Dump _ doc :: t' => doc :: written t'
  | _ :: t' => written t'
  end.

(** The text of [combined_analysis.json] after the run, when the file was
    written. *)
Definition file_text (float_repr : text -> text) (w : world) : option text :=
  option_map (dump_text float_repr) (persisted w).

(** The calls to the outside: a prompt to the user, a run of a persona. *)
Inductive call :=
| Ask (prompt : text)
| Run (a : agent).

Fixpoint calls (t : list event) : list call :=
  match t with
  | [] => []
  | Input prompt :: t' => Ask prompt :: calls t'
  | ClientRun a _ :: t' => Run a :: calls t'
  | _ :: t' => calls t'
  end.

(* ================================================================== *)
(** * The three ways [clean_and_parse_json] can end *)

Inductive extraction :=
| NoJsonFound (clean_content : text)
| MalformedJson (json_content : text) (e : exn)
| Parsed (json_content : text) (v : json).

Definition extract (raw_content : text) : extraction :=
  match re_search_braces (clean raw_content) with
  | None => NoJsonFound (clean raw_content)
  | Some json_content =>
      match loads json_content with
      | Ret v => Parsed json_content v
      | Raise e => MalformedJson json_content e
      end
  end.

(** The value handed back to the caller. *)
Definition returned (x : extraction) : json :=
  match x with
  | Parsed _ v => v
  | _ => JNull
  end.

Definition extracted_notice (json_content : text) : list event :=
  [Print (py "Extracted JSON content: "
          ++ (if Nat.ltb 500 (length json_content)
              then firstn 500 json_content ++ py "..."
              else json_content));
   Log DEBUG (py "Extracted JSON content: " ++ json_content)].

(** What is printed and logged on the way. *)
Definition reported (x : extraction) : list event :=
  match x with
  | NoJsonFound clean_content =>
      [Print (py "No JSON object found in the content");
       Log ERROR (py "No JSON object found. Raw content: " ++ clean_content)]
  | MalformedJson json_content e =>
      extracted_notice json_content ++
      [Print (py "JSON Decode Error: " ++ str_exn e);
       Print (py "Problematic content: " ++ firstn 500 json_content ++ py "...");
       Log ERROR (py "JSON Decode Error: " ++ str_exn e);
       Log ERROR (py "Problematic content: " ++ json_content)]
  | Parsed json_content _ => extracted_notice json_content
  end.

Definition extracted (raw_content : text) : json := returned (extract raw_content).

(** [w] after the events [evs]. *)
Definition extend (w : world) (evs : list event) : world :=
  {| trace := trace w ++ evs;
     combined_output := combined_output w;
     co_history := co_history w |}.

(** The final message of a response, when it has one with a text. *)
Definition final_text (r : response) : option text :=
  match rev (messages r) with
  | m :: _ => content m
  | [] => None
  end.

(** Stage [a], asked [msgs], answers the text [raw]. *)
Definition answers (env : environment) (a : agent) (msgs : list message)
    (raw : text) : Prop :=
  exists r, client_run env a msgs = Ret r /\ final_text r = Some raw.

(** [d'] has every entry of [d]. *)
Definition extends (d d' : pydict) : Prop :=
  forall k v, dict_get k d = Some v -> dict_get k d' = Some v.

(** The call of [tavily_client.search] that [tavily_search] makes. *)
Definition search_call (env : environment) (query : text) : outcome json :=
  tavily_client_search env query (py "advanced") true 10
    (py "relevance_and_recency").

Definition keyboard_interrupt : exn :=
  {| exn_class := KeyboardInterrupt; exn_msg := [] |}.

Definition reply (t : text) : outcome response :=
  Ret {| messages := [{| role := py "assistant"; content := Some t |}] |}.

(* ================================================================== *)
(** * Vocabulary of the properties *)

(** [p] occurs somewhere in [s] ([p in s]). *)
Fixpoint contains (p s : text) : bool :=
  starts_with p s
  || match s with
     | [] => false
     | _ :: s' => contains p s'
     end.

(** No character of [s] is a brace. *)
Definition brace_free (s : text) : bool :=
  forallb (fun c => negb ((c =? LBRACE) || (c =? RBRACE))) s.

(** Some opening brace of [s] has a closing brace after it. *)
Fixpoint has_span (s : text) : bool :=
  match s with
  | [] => false
  | c :: s' => ((c =? LBRACE) && existsb (N.eqb RBRACE) s') || has_span s'
  end.

(** [replace('```json', '').replace('```', '')] *)
Definition unfence (s : text) : text :=
  replace FENCE [] (replace FENCE_JSON [] s).

(** [a] is [b] with some characters left out. *)
Inductive subseq : text -> text -> Prop :=
| subseq_nil : subseq [] []
| subseq_keep c a b : subseq a b -> subseq (c :: a) (c :: b)
| subseq_drop c a b : subseq a b -> subseq a (c :: b).

(** The state of the run when the [try] statement is entered. *)
Definition at_try (company_url : text) : world :=
  {| trace := [Log DEBUG (py "Starting main function");
               Print (py "Welcome to the IT Solutions Sales Team!");
               Input URL_PROMPT;
               Log DEBUG (py "User input company URL: " ++ company_url)];
     combined_output := [];
     co_history := [[]] |}.

(** No high surrogate of [s] is followed by a low one. *)
Fixpoint pairs_free (s : text) : bool :=
  match s with
  | [] => true
  | h :: t =>
      match t with
      | l :: _ => negb (Decoder.is_high h && Decoder.is_low l)
      | [] => true
      end && pairs_free t
  end.

(** Every code point is one of Unicode's. *)
Definition valid_text (s : text) : bool := forallb (fun c => c <? 0x110000) s.

Definition no_float (v : json) : bool :=
  match v with
  | JFloat _ => false
  | _ => true
  end.

(** What holds of every Python object: the strings are made of code
    points and a dictionary has each key once. *)
Definition node_valid (v : json) : bool :=
  match v with
  | JStr s => valid_text s
  | JObj d => distinct_keys d && forallb (fun kv => valid_text (fst kv)) d
  | _ => true
  end.

Definition node_unpaired (v : json) : bool :=
  match v with
  | JStr s => pairs_free s
  | JObj d => forallb (fun kv => pairs_free (fst kv)) d
  | _ => true
  end.

(** No float inside [v]. *)
Definition float_free : json -> bool := json_all no_float.

(** [v] is a Python object. *)
Definition python_value : json -> bool := json_all node_valid.

(** No string or key inside [v] has a high surrogate followed by a low
    one. *)
Definition unpaired : json -> bool := json_all node_unpaired.

(** The order in which [main] asks the user and runs the personas. *)
Definition PROTOCOL : list call :=
  [Ask URL_PROMPT; Run info_extractor; Run pain_point_analyzer;
   Run industry_challenges_identifier; Ask VENDOR_PROMPT;
   Run solution_reporter].

(** The keys of the document, in the order in which [main] sets them. *)
Definition KEYS : list text :=
  [py "company_info"; py "pain_points"; py "industry_challenges";
   py "selling_company"; py "solutions"].

Definition nonempty_object (v : json) : bool :=
  match v with
  | JObj (_ :: _) => true
  | _ => false
  end.

(** What [main] stores under a key: the name of the vendor is a string,
    every other entry is a dictionary that is not empty. *)
Definition entry_shape (kv : text * json) : bool :=
  if text_eqb (fst kv) (py "selling_company")
  then match snd kv with JStr _ => true | _ => false end
  else nonempty_object (snd kv).

(** The file is written at most twice, each time with the accumulator as
    it is at the end of the run. *)
Definition written_is_accumulator (w : world) : Prop :=
  written (trace w) = []
  \/ written (trace w) = [JObj (combined_output w)]
  \/ written (trace w) = [JObj (combined_output w); JObj (combined_output w)].

(** The calls made are the first calls of [PROTOCOL]. *)
Definition follows_protocol (w : world) : Prop :=
  exists rest, calls (trace w) ++ rest = PROTOCOL.

(** The keys are the first keys of [KEYS] and every entry has its shape. *)
Definition document_shape (d : pydict) : Prop :=
  (exists rest, map fst d ++ rest = KEYS) /\ forallb entry_shape d = true.

(** A run that ends with an exception has written nothing, and when the
    exception is an instance of [Exception] it came from the first prompt. *)
Definition raises_early (r : outcome unit * world) : Prop :=
  match fst r with
  | Ret _ => True
  | Raise e =>
      written (trace (snd r)) = []
      /\ (isinstance_Exception e = true
          -> calls (trace (snd r)) = [Ask URL_PROMPT])
  end.

Definition every_run (r : outcome unit * world) : Prop :=
  written_is_accumulator (snd r) /\ follows_protocol (snd r)
  /\ document_shape (combined_output (snd r)) /\ raises_early r.

Definition is_ascii (c : N) : bool := c <? 128.

(** Every float inside [v] is written with ASCII characters. *)
Definition floats_ascii (float_repr : text -> text) : json -> bool :=
  json_all (fun x => match x with
                     | JFloat lit => forallb is_ascii (float_repr lit)
                     | _ => true
                     end).

(* ================================================================== *)
(** * Closed runs *)

(** A stand-in for [float_repr] in closed runs, none of which has a float. *)
Definition literal_repr (lit : text) : text := lit.

(** An environment that answers each persona with a fixed outcome and each
    prompt with a fixed line. *)
Definition scripted (r1 r2 r3 r4 : outcome response) (found : outcome json)
    : environment :=
  {| client_run := fun a _ =>
       match a with
       | info_extractor => r1
       | pain_point_analyzer => r2
       | industry_challenges_identifier => r3
       | solution_reporter => r4
       end;
     input := fun prompt =>
       Ret (if text_eqb prompt URL_PROMPT
            then py "https://acme.example" else py "Initech");
     tavily_client_search := fun _ _ _ _ _ => found |}.

Definition REFUSAL : text := py "Sorry, I cannot comply.".
Definition PROFILE : text := pyq "Here it is: ```json {'company_name': 'ACME'} ```".
Definition PAINS : text := pyq "{'pain_points': ['legacy ERP']}".
Definition SOLUTIONS : text := pyq "{'selling_company': 'Initech', 'solutions': []}".

Definition connection_error : exn :=
  {| exn_class := OtherError (py "ConnectionError");
     exn_msg := py "connection reset" |}.

(** The scenario of the specification: a fenced object between two lines
    of prose. *)
Definition FENCED_SCENARIO : text :=
  py "Here is the data:" ++ [10] ++ py "```json" ++ [10] ++ pyq "{'a': 1}"
  ++ [10] ++ py "```" ++ [10] ++ py "Thanks".

Definition CHALLENGES : text :=
  pyq "{'industry_challenges': [], 'trends': ['AI']}".
Definition EMPTY_OBJECT : text := py "{}".

(** A response without any message. *)
Definition NO_MESSAGE : outcome response := Ret {| messages := [] |}.

Definition eof_error : exn :=
  {| exn_class := EOFError; exn_msg := py "EOF when reading a line" |}.

(** The four stages succeed. *)
Definition SUCCESS : environment :=
  scripted (reply PROFILE) (reply PAINS) (reply CHALLENGES) (reply SOLUTIONS)
    (Ret JNull).


(** No terminal: every prompt meets the end of the input. *)
Definition no_terminal : environment :=
  {| client_run := fun _ _ => reply REFUSAL;
     input := fun _ => Raise eof_error;
     tavily_client_search := fun _ _ _ _ _ => Ret JNull |}.

(** The three first personas answer and the user interrupts the vendor
    prompt. *)
Definition INTERRUPTED_AT_VENDOR : environment :=
  {| client_run := client_run SUCCESS;
     input := fun prompt =>
       if text_eqb prompt URL_PROMPT then Ret (py "https://acme.example")
       else Raise keyboard_interrupt;
     tavily_client_search := fun _ _ _ _ _ => Ret JNull |}.

(* ================================================================== *)
(** * Running the extractor *)

Lemma loads_raises_decode_error (s : text) (e : exn) :
  loads s = Raise e -> e = Decoder.decode_error.
Proof.
  unfold loads, Decoder.finish.
  destruct (Decoder.run Decoder.init s) as [l K].
  destruct l; destruct K; try congruence.
  destruct (Decoder.num_value neg ns lit); congruence.
Qed.

Lemma extend_extend (w : world) (a b : list event) :
  extend (extend w a) b = extend w (a ++ b).
Proof. unfold extend; simpl. now rewrite <- app_assoc. Qed.

Lemma record_event_extend (ev : event) (w : world) :
  record_event ev w = extend w [ev].
Proof. reflexivity. Qed.

(** The extractor always returns: its value and its reports are those of
    [extract]. *)
Lemma clean_and_parse_json_run (raw : text) (w : world) :
  clean_and_parse_json raw w
  = (Ret (extracted raw), extend w (reported (extract raw))).
Proof.
  unfold clean_and_parse_json, extracted, extract.
  destruct (re_search_braces (clean raw)) as [j|].
  2:{ cbv [bind print logger_error effect ret]. cbn [returned reported].
      rewrite !record_event_extend, extend_extend. reflexivity. }
  cbv [bind print logger_debug effect try_except].
  destruct (loads j) as [v|e] eqn:E.
  - cbn [returned reported]. unfold extracted_notice.
    rewrite !record_event_extend, extend_extend. reflexivity.
  - rewrite (loads_raises_decode_error _ _ E).
    cbv [isinstance_JSONDecodeError Decoder.decode_error exn_class bind print
         logger_error effect ret].
    cbn [returned reported]. unfold extracted_notice.
    rewrite !record_event_extend, !extend_extend. reflexivity.
Qed.

Lemma extend_trace (w : world) (evs : list event) :
  trace (extend w evs) = trace w ++ evs.
Proof. reflexivity. Qed.

Lemma persisted_in_app (a b : list event) (cur : option json) :
  persisted_in (a ++ b) cur = persisted_in b (persisted_in a cur).
Proof.
  revert cur; induction a as [|ev a IH]; intros cur; [reflexivity|].
  destruct ev; simpl; apply IH.
Qed.

Lemma persisted_in_reported (x : extraction) (cur : option json) :
  persisted_in (reported x) cur = cur.
Proof. destruct x; reflexivity. Qed.

Lemma existsb_reported (a : agent) (x : extraction) :
  existsb (is_run_of a) (reported x) = false.
Proof. destruct x; reflexivity. Qed.

(* ================================================================== *)
(** * Dictionaries *)

Lemma text_eqb_refl (a : text) : text_eqb a a = true.
Proof. induction a; simpl; [reflexivity|]. now rewrite N.eqb_refl. Qed.

Lemma text_eqb_eq (a b : text) : text_eqb a b = true <-> a = b.
Proof.
  split; [|intros ->; apply text_eqb_refl].
  revert b; induction a as [|x a IH]; destruct b as [|y b]; simpl;
    try congruence.
  rewrite andb_true_iff, N.eqb_eq. intros [-> H]. f_equal. now apply IH.
Qed.

Lemma extends_refl (d : pydict) : extends d d.
Proof. intros k v H; exact H. Qed.

Lemma extends_trans (a b c : pydict) :
  extends a b -> extends b c -> extends a c.
Proof. intros H1 H2 k v H. apply H2, H1, H. Qed.

Lemma dict_get_set_other (k k' : text) (v : json) (d : pydict) :
  text_eqb k' k = false -> dict_get k' (dict_set k v d) = dict_get k' d.
Proof.
  intros Hne. induction d as [|[k0 v0] d IH]; simpl.
  - now rewrite Hne.
  - destruct (text_eqb k k0) eqn:E; simpl.
    + apply text_eqb_eq in E; subst k0. now rewrite Hne.
    + destruct (text_eqb k' k0); [reflexivity|apply IH].
Qed.

(** Setting a key that is not there keeps every entry. *)
Lemma extends_dict_set (k : text) (v : json) (d : pydict) :
  dict_get k d = None -> extends d (dict_set k v d).
Proof.
  intros Hnone k' v' H.
  destruct (text_eqb k' k) eqn:E.
  - apply text_eqb_eq in E; subst k'. congruence.
  - now rewrite dict_get_set_other.
Qed.

(* ================================================================== *)
(** * Running [main] *)

Ltac unfold_program :=
  cbv [main script main_try main_except tavily_search bind ret raise effect
       print logger_debug logger_error logger_exception external run_agent
       read_input try_except last_content parse_content new_combined_output
       setitem get_combined_output save_combined_output record_event extend
       at_try world0 trace combined_output co_history].

Lemma answers_inv (env : environment) (a : agent) (msgs : list message)
    (raw : text) :
  answers env a msgs raw ->
  exists r m l, client_run env a msgs = Ret r /\ rev (messages r) = m :: l
                /\ content m = Some raw.
Proof.
  intros (r & Hrun & Hfin). unfold final_text in Hfin.
  destruct (rev (messages r)) as [|m l] eqn:E; [discriminate|].
  now exists r, m, l.
Qed.

(** One stage that answers [raw]: rewrite the run of its persona, the
    access to the final message and the extraction. *)
Ltac stage H :=
  let r := fresh "r" in let m := fresh "m" in let l := fresh "l" in
  let Hr := fresh "Hrun" in let Hl := fresh "Hlast" in let Hc := fresh "Hcontent" in
  destruct (answers_inv _ _ _ _ H) as (r & m & l & Hr & Hl & Hc);
  rewrite Hr; cbv beta iota; rewrite Hl; cbv beta iota; rewrite Hc;
  cbv beta iota; rewrite clean_and_parse_json_run; unfold_program.

Section MainProperties.

Variable float_repr : text -> text.
Variable env : environment.

(** [main] after the first prompt: the [try] statement, then the final
    save unless the body returned. *)
Lemma main_run (company_url : text) :
  input env URL_PROMPT = Ret company_url ->
  main float_repr env world0
  = match main_try float_repr env company_url (at_try company_url) with
    | (Ret Returned, w) => (Ret tt, w)
    | (Ret Completed, w) =>
        (Ret tt,
         extend w [Dump OUTPUT_FILE (JObj (combined_output w));
                   Print (10 :: py "Analysis has been saved to 'combined_analysis.json'")])
    | (Raise e, w) =>
        if isinstance_Exception e
        then (Ret tt,
              extend w
                [Print (py "An unexpected error occurred: " ++ str_exn e);
                 Log ERROR (py "Unexpected error: " ++ str_exn e);
                 LogException (py "Exception details:") e;
                 Dump OUTPUT_FILE (JObj (combined_output w));
                 Print (10 :: py "Analysis has been saved to 'combined_analysis.json'")])
        else (Raise e, w)
    end.
Proof.
  intros Hurl.
  cbv [main bind ret effect print logger_debug external read_input
       new_combined_output try_except].
  rewrite Hurl. cbv beta iota.
  change (main_try float_repr env company_url _)
    with (main_try float_repr env company_url (at_try company_url)).
  destruct (main_try float_repr env company_url (at_try company_url))
    as [[[|]|e] w]; try reflexivity.
  - cbv [save_combined_output bind print effect].
    now rewrite !record_event_extend, extend_extend.
  - destruct (isinstance_Exception e); [|reflexivity].
    cbv [main_except save_combined_output bind ret print logger_error
         logger_exception effect].
    rewrite !record_event_extend, !extend_extend.
    cbv [extend combined_output]. simpl. reflexivity.
Qed.

End MainProperties.

Lemma dict_set_fresh (k : text) (v : json) (d : pydict) :
  dict_get k d = None -> dict_set k v d = d ++ [(k, v)].
Proof.
  induction d as [|[k0 v0] d IH]; simpl; [reflexivity|].
  destruct (text_eqb k k0); [discriminate|]. intros H. now rewrite IH.
Qed.

Lemma existsb_app_ev (f : event -> bool) (a b : list event) :
  existsb f (a ++ b) = existsb f a || existsb f b.
Proof. apply existsb_app. Qed.

Ltac observe :=
  unfold executed, persisted; cbv [trace];
  repeat (progress (repeat rewrite existsb_app_ev;
                    repeat rewrite persisted_in_app;
                    repeat rewrite existsb_reported;
                    repeat rewrite persisted_in_reported;
                    cbn [existsb persisted_in is_run_of orb])).


(** Every way a run can go: the answers of the environment and the tests
    of the program are split into cases. *)
Ltac explore :=
  unfold_program;
  repeat (first
    [ rewrite clean_and_parse_json_run; unfold_program
    | match goal with
      | |- context [match client_run ?e ?a ?m with _ => _ end] =>
          destruct (client_run e a m); unfold_program
      | |- context [match input ?e ?p with _ => _ end] =>
          destruct (input e p); unfold_program
      | |- context [match rev (messages ?r) with _ => _ end] =>
          destruct (rev (messages r)); unfold_program
      | |- context [match content ?m with _ => _ end] =>
          destruct (content m); unfold_program
      | |- context [if truthy ?v then _ else _] =>
          destruct (truthy v); unfold_program
      | |- context [if isinstance_Exception ?e then _ else _] =>
          destruct (isinstance_Exception e); unfold_program
      end ]).

(** Each dictionary of the list has the entries of the one before. *)
Fixpoint chain (l : list pydict) : Prop :=
  match l with
  | [] => True
  | a :: t => match t with
              | [] => True
              | b :: _ => extends a b /\ chain t
              end
  end.

Lemma chain_head (a : pydict) (l : list pydict) (d : pydict) (j : nat) :
  chain (a :: l) -> nth_error (a :: l) j = Some d -> extends a d.
Proof.
  revert a d l. induction j as [|j IH]; intros a d l Hc Hn.
  - simpl in Hn. injection Hn as <-. apply extends_refl.
  - destruct l as [|b l]; [destruct j; discriminate|].
    destruct Hc as [Hab Hc]. simpl in Hn.
    eapply extends_trans; [exact Hab|]. eapply IH; eauto.
Qed.

Lemma chain_pairs (l : list pydict) :
  chain l ->
  forall i j d d', (i <= j)%nat -> nth_error l i = Some d ->
                   nth_error l j = Some d' -> extends d d'.
Proof.
  induction l as [|a l IH]; intros Hc i j d d' Hij Hi Hj.
  - destruct i; discriminate.
  - destruct i as [|i].
    + simpl in Hi. injection Hi as <-. eapply chain_head; eauto.
    + destruct j as [|j]; [lia|]. simpl in Hi, Hj.
      apply (IH (match l as l0 return chain (a :: l0) -> chain l0 with
                 | [] => fun _ => I
                 | _ :: _ => fun H => proj2 H
                 end Hc) i j); auto. lia.
Qed.

Section MainClaims.

Variable float_repr : text -> text.
Variable env : environment.


(** The history of the accumulator is a chain, however the run goes. *)
Lemma main_history_chain :
  chain (co_history (snd (main float_repr env world0))).
Proof.
  explore; cbn [snd co_history app chain]; repeat split;
    apply extends_dict_set; reflexivity.
Qed.

End MainClaims.

(* ================================================================== *)
(** * Facts on [replace], [strip] and the search for the braces *)

Section Replace.

Variable old : text.
Hypothesis old_not_empty : old <> [].

Lemma replace_go_skipn (new : text) (k : nat) (s : text) :
  replace_go old new k s = replace_go old new 0 (skipn k s).
Proof.
  revert k; induction s as [|c s IH]; intros [|k]; try reflexivity.
  simpl. apply IH.
Qed.

Lemma replace_eq_go (new s : text) :
  replace old new s = replace_go old new 0 s.
Proof. unfold replace. destruct old; [congruence|reflexivity]. Qed.

Lemma length_old : exists n, length old = S n.
Proof. destruct old; [congruence|]. now eexists. Qed.

Lemma replace_unfold (new s : text) :
  replace old new s
  = if starts_with old s
    then new ++ replace old new (skipn (length old) s)
    else match s with
         | [] => []
         | c :: s' => c :: replace old new s'
         end.
Proof.
  rewrite !replace_eq_go. destruct length_old as [n Hn].
  destruct s as [|c s].
  - simpl. destruct old; [congruence|reflexivity].
  - rewrite replace_eq_go. cbn [replace_go].
    destruct (starts_with old (c :: s)); [|reflexivity].
    rewrite replace_go_skipn, Hn. reflexivity.
Qed.

Lemma replace_nil (new : text) : replace old new [] = [].
Proof. now rewrite replace_eq_go. Qed.

Lemma replace_go_subseq (k : nat) (s : text) :
  subseq (replace_go old [] k s) s.
Proof.
  revert k; induction s as [|c s IH]; intros k; [constructor|].
  destruct k as [|k]; cbn [replace_go].
  - destruct (starts_with old (c :: s)); simpl; constructor; apply IH.
  - constructor; apply IH.
Qed.

Lemma replace_subseq (s : text) : subseq (replace old [] s) s.
Proof.
  rewrite replace_eq_go. apply replace_go_subseq.
Qed.

Lemma starts_with_cut (c : N) (p a b : text) :
  ~ In c p -> starts_with p (a ++ c :: b) = true -> starts_with p a = true.
Proof.
  revert a; induction p as [|x p IH]; intros a Hc H; [reflexivity|].
  destruct a as [|y a]; simpl in *.
  - apply andb_true_iff in H as [H _]. apply N.eqb_eq in H. tauto.
  - apply andb_true_iff in H as [H1 H2]. rewrite H1. apply IH; tauto.
Qed.

Lemma starts_with_app (p a b : text) :
  starts_with p a = true -> starts_with p (a ++ b) = true.
Proof.
  revert a; induction p as [|x p IH]; intros a H; [reflexivity|].
  destruct a as [|y a]; simpl in *; [discriminate|].
  apply andb_true_iff in H as [H1 H2]. rewrite H1. now apply IH.
Qed.

Lemma starts_with_length (p a : text) :
  starts_with p a = true -> (length p <= length a)%nat.
Proof.
  revert a; induction p as [|x p IH]; intros a H; simpl; [lia|].
  destruct a as [|y a]; simpl in *; [discriminate|].
  apply andb_true_iff in H as [_ H]. apply IH in H. lia.
Qed.

(** A character that is not in the pattern separates the occurrences. *)
Lemma replace_split (c : N) (a b : text) :
  ~ In c old ->
  replace old [] (a ++ c :: b) = replace old [] a ++ c :: replace old [] b.
Proof.
  intros Hc. remember (length a) as n eqn:Hn. revert a Hn.
  induction n as [n IH] using lt_wf_ind. intros a Hn.
  rewrite (replace_unfold [] (a ++ c :: b)), (replace_unfold [] a).
  destruct (starts_with old (a ++ c :: b)) eqn:E.
  - pose proof (starts_with_cut _ _ _ _ Hc E) as Ea. rewrite Ea.
    pose proof (starts_with_length _ _ Ea) as Hlen.
    rewrite skipn_app.
    replace (length old - length a)%nat with 0%nat by lia.
    cbn [skipn app].
    apply (IH (length (skipn (length old) a))); [|reflexivity].
    rewrite length_skipn. destruct length_old as [m Hm]. lia.
  - destruct (starts_with old a) eqn:Ea.
    + now rewrite (starts_with_app _ _ (c :: b) Ea) in E.
    + destruct a as [|y a]; cbn [app]; [reflexivity|].
      f_equal. apply (IH (length a)); [subst n; simpl; lia|reflexivity].
Qed.

Lemma contains_starts_with (s : text) :
  contains old s = false -> starts_with old s = false.
Proof. destruct s; simpl; intros H; apply orb_false_iff in H; tauto. Qed.

Lemma replace_absent (s : text) :
  contains old s = false -> replace old [] s = s.
Proof.
  induction s as [|c s IH]; intros H; [apply replace_nil|].
  rewrite replace_unfold, (contains_starts_with _ H).
  simpl in H. apply orb_false_iff in H as [_ H]. now rewrite IH.
Qed.

End Replace.

Lemma starts_with_prefix (p q s : text) :
  starts_with (p ++ q) s = true -> starts_with p s = true.
Proof.
  revert s; induction p as [|x p IH]; intros s H; [reflexivity|].
  destruct s as [|y s]; simpl in *; [discriminate|].
  apply andb_true_iff in H as [H1 H2]. rewrite H1. now apply IH.
Qed.

Lemma contains_prefix (p q s : text) :
  contains p s = false -> contains (p ++ q) s = false.
Proof.
  induction s as [|c s IH]; simpl; intros H; apply orb_false_iff in H as [H1 H2].
  - destruct (starts_with (p ++ q) []) eqn:E; [|reflexivity].
    apply starts_with_prefix in E. congruence.
  - rewrite (IH H2), orb_false_r.
    destruct (starts_with (p ++ q) (c :: s)) eqn:E; [|reflexivity].
    apply starts_with_prefix in E. congruence.
Qed.

Lemma contains_app_l (p a b : text) :
  contains p (a ++ b) = false -> contains p a = false.
Proof.
  induction a as [|c a IH]; simpl; intros H.
  - destruct p; [simpl in H; destruct b; discriminate|reflexivity].
  - apply orb_false_iff in H as [H1 H2]. rewrite (IH H2), orb_false_r.
    destruct (starts_with p (c :: a)) eqn:E; [|reflexivity].
    apply (starts_with_app _ _ b) in E. simpl in E. congruence.
Qed.

Lemma contains_tail (p : text) (c : N) (s : text) :
  contains p (c :: s) = false -> contains p s = false.
Proof. simpl. intros H. apply orb_false_iff in H. tauto. Qed.

Lemma FENCE_not_empty : FENCE <> [].
Proof. discriminate. Qed.

Lemma FENCE_JSON_not_empty : FENCE_JSON <> [].
Proof. discriminate. Qed.

Lemma unfence_split (c : N) (a b : text) :
  c = LBRACE \/ c = RBRACE ->
  unfence (a ++ c :: b) = unfence a ++ c :: unfence b.
Proof.
  intros Hc. unfold unfence.
  rewrite (replace_split _ FENCE_JSON_not_empty), (replace_split _ FENCE_not_empty);
    [reflexivity| |];
    destruct Hc as [-> | ->]; vm_compute; intuition discriminate.
Qed.

Lemma unfence_absent (s : text) : contains FENCE s = false -> unfence s = s.
Proof.
  intros H. unfold unfence.
  rewrite (replace_absent _ FENCE_JSON_not_empty).
  - now apply replace_absent; [apply FENCE_not_empty|].
  - change FENCE_JSON with (FENCE ++ py "json"). now apply contains_prefix.
Qed.

Lemma subseq_trans (a b c : text) :
  subseq a b -> subseq b c -> subseq a c.
Proof.
  intros Hab Hbc. revert a Hab.
  induction Hbc as [|x b c Hbc IH|x b c Hbc IH]; intros a Hab.
  - exact Hab.
  - inversion Hab; subst; constructor; auto.
  - constructor; auto.
Qed.

Lemma unfence_subseq (s : text) : subseq (unfence s) s.
Proof.
  unfold unfence.
  eapply subseq_trans; apply replace_subseq;
    [apply FENCE_not_empty | apply FENCE_JSON_not_empty].
Qed.

Lemma subseq_forallb (f : N -> bool) (a b : text) :
  subseq a b -> forallb f b = true -> forallb f a = true.
Proof.
  intros Hs; induction Hs as [|c a b Hs IH|c a b Hs IH]; simpl; intros H;
    auto; apply andb_true_iff in H as [H1 H2]; auto.
  rewrite H1. auto.
Qed.

Lemma subseq_existsb (f : N -> bool) (a b : text) :
  subseq a b -> existsb f a = true -> existsb f b = true.
Proof.
  intros Hs; induction Hs as [|c a b Hs IH|c a b Hs IH]; simpl; intros H;
    auto.
  - apply orb_true_iff in H as [H | H]; [now rewrite H|].
    rewrite (IH H). apply orb_true_r.
  - rewrite (IH H). apply orb_true_r.
Qed.

Lemma subseq_has_span (a b : text) :
  subseq a b -> has_span a = true -> has_span b = true.
Proof.
  intros Hs; induction Hs as [|c a b Hs IH|c a b Hs IH]; cbn [has_span];
    intros H; auto.
  - apply orb_true_iff in H as [H | H].
    + apply andb_true_iff in H as [H1 H2]. rewrite H1.
      now rewrite (subseq_existsb _ _ _ Hs H2).
    + rewrite (IH H). apply orb_true_r.
  - rewrite (IH H). apply orb_true_r.
Qed.

Lemma subseq_refl (a : text) : subseq a a.
Proof. induction a; constructor; auto. Qed.

Lemma subseq_app (a b a' b' : text) :
  subseq a b -> subseq a' b' -> subseq (a ++ a') (b ++ b').
Proof.
  intros Hs; induction Hs; simpl; intros H'; auto; constructor; auto.
Qed.

Lemma subseq_rev (a b : text) : subseq a b -> subseq (rev a) (rev b).
Proof.
  intros Hs; induction Hs as [|c a b Hs IH|c a b Hs IH]; simpl.
  - constructor.
  - apply subseq_app; [assumption|apply subseq_refl].
  - rewrite <- (app_nil_r (rev a)). apply subseq_app; [assumption|].
    repeat constructor.
Qed.

Lemma lstrip_subseq (s : text) : subseq (lstrip s) s.
Proof.
  induction s as [|c s IH]; simpl; [constructor|].
  destruct (isspace c); [now constructor|apply subseq_refl].
Qed.

Lemma rstrip_subseq (s : text) : subseq (rstrip s) s.
Proof.
  unfold rstrip. rewrite <- (rev_involutive s) at 2.
  apply subseq_rev, lstrip_subseq.
Qed.

Lemma lstrip_app_nonspace (a : text) (x : N) (r : text) :
  isspace x = false -> lstrip (a ++ x :: r) = lstrip a ++ x :: r.
Proof.
  intros Hx. induction a as [|c a IH]; simpl.
  - now rewrite Hx.
  - destruct (isspace c); [exact IH|reflexivity].
Qed.

Lemma rstrip_app_nonspace (r : text) (x : N) (c : text) :
  isspace x = false -> rstrip (r ++ x :: c) = r ++ x :: rstrip c.
Proof.
  intros Hx. unfold rstrip. rewrite rev_app_distr. simpl.
  rewrite <- app_assoc. simpl. rewrite (lstrip_app_nonspace _ _ _ Hx).
  rewrite rev_app_distr. simpl. rewrite rev_involutive, <- app_assoc.
  reflexivity.
Qed.

(** The cleaned text around one pair of braces. *)
Lemma clean_shape (pre body post : text) :
  clean (pre ++ LBRACE :: body ++ RBRACE :: post)
  = lstrip (unfence pre) ++ LBRACE :: unfence body
    ++ RBRACE :: rstrip (unfence post).
Proof.
  unfold clean. fold (unfence (pre ++ LBRACE :: body ++ RBRACE :: post)).
  rewrite unfence_split by now left. rewrite unfence_split by now right.
  unfold strip. rewrite lstrip_app_nonspace by reflexivity.
  rewrite app_comm_cons, app_assoc.
  rewrite rstrip_app_nonspace by reflexivity.
  now rewrite <- app_assoc.
Qed.

Lemma longest_close_none (s : text) :
  existsb (N.eqb RBRACE) s = false -> longest_close s = None.
Proof.
  induction s as [|c s IH]; cbn [existsb longest_close]; intros H;
    [reflexivity|].
  apply orb_false_iff in H as [H1 H2]. rewrite (IH H2).
  rewrite N.eqb_sym, H1. reflexivity.
Qed.

Lemma brace_free_no_close (s : text) :
  brace_free s = true -> existsb (N.eqb RBRACE) s = false.
Proof.
  unfold brace_free.
  induction s as [|c s IH]; cbn [existsb forallb]; intros H; [reflexivity|].
  apply andb_true_iff in H as [H1 H2]. rewrite (IH H2), orb_false_r.
  apply negb_true_iff, orb_false_iff in H1 as [_ H1].
  now rewrite N.eqb_sym.
Qed.

Lemma longest_close_last (b c : text) :
  brace_free c = true ->
  longest_close (b ++ RBRACE :: c) = Some (b ++ [RBRACE]).
Proof.
  intros Hc. induction b as [|x b IH]; cbn [app longest_close].
  - rewrite (longest_close_none _ (brace_free_no_close _ Hc)).
    now rewrite N.eqb_refl.
  - now rewrite IH.
Qed.

(** The search finds the text from the first opening brace to the last
    closing brace. *)
Lemma re_search_braces_span (a b c : text) :
  brace_free a = true -> brace_free c = true ->
  re_search_braces (a ++ LBRACE :: b ++ RBRACE :: c)
  = Some (LBRACE :: b ++ [RBRACE]).
Proof.
  intros Ha Hc. induction a as [|x a IH]; cbn [app re_search_braces].
  - now rewrite N.eqb_refl, (longest_close_last _ _ Hc).
  - unfold brace_free in Ha. cbn [forallb] in Ha.
    apply andb_true_iff in Ha as [Hx Ha].
    apply negb_true_iff, orb_false_iff in Hx as [Hx _].
    rewrite Hx. now apply IH.
Qed.

Lemma re_search_braces_none (s : text) :
  has_span s = false -> re_search_braces s = None.
Proof.
  induction s as [|c s IH]; cbn [has_span re_search_braces]; intros H;
    [reflexivity|].
  apply orb_false_iff in H as [H1 H2].
  destruct (c =? LBRACE); [|now apply IH].
  cbn [andb] in H1. rewrite (longest_close_none _ H1). now apply IH.
Qed.

Lemma clean_subseq (s : text) : subseq (clean s) s.
Proof.
  unfold clean. fold (unfence s). unfold strip.
  eapply subseq_trans; [apply rstrip_subseq|].
  eapply subseq_trans; [apply lstrip_subseq|apply unfence_subseq].
Qed.

(** Where the search finds the braces in the cleaned text. *)
Lemma search_clean (pre body post : text) :
  brace_free pre = true -> brace_free post = true ->
  re_search_braces (clean (pre ++ LBRACE :: body ++ RBRACE :: post))
  = Some (LBRACE :: unfence body ++ [RBRACE]).
Proof.
  intros Hpre Hpost. rewrite clean_shape.
  apply re_search_braces_span.
  - eapply subseq_forallb; [|exact Hpre].
    eapply subseq_trans; [apply lstrip_subseq|apply unfence_subseq].
  - eapply subseq_forallb; [|exact Hpost].
    eapply subseq_trans; [apply rstrip_subseq|apply unfence_subseq].
Qed.

(** A text without a pair of braces has none after cleaning. *)
Lemma search_clean_none (raw : text) :
  has_span raw = false -> re_search_braces (clean raw) = None.
Proof.
  intros H. apply re_search_braces_none.
  destruct (has_span (clean raw)) eqn:E; [|reflexivity].
  rewrite (subseq_has_span _ _ (clean_subseq raw) E) in H. discriminate.
Qed.

(** [has_span] decides whether the text has the shape [... { ... } ...]. *)
Lemma has_span_iff (s : text) :
  has_span s = true
  <-> exists a b c, s = a ++ [LBRACE] ++ b ++ [RBRACE] ++ c.
Proof.
  split.
  - induction s as [|x s IH]; cbn [has_span]; [discriminate|]. intros H.
    apply orb_true_iff in H as [H | H].
    + apply andb_true_iff in H as [H1 H2]. apply N.eqb_eq in H1. subst x.
      apply existsb_exists in H2 as (y & Hy & Ey). apply N.eqb_eq in Ey.
      subst y. apply in_split in Hy as (b & c & ->).
      now exists [], b, c.
    + destruct (IH H) as (a & b & c & ->). now exists (x :: a), b, c.
  - intros (a & b & c & ->). induction a as [|x a IH]; cbn [app has_span].
    + rewrite N.eqb_refl, existsb_app. cbn [existsb andb].
      now rewrite N.eqb_refl, !orb_true_r.
    + cbn [app] in IH. rewrite IH. apply orb_true_r.
Qed.

(* ================================================================== *)
(** * The search wrapper *)

(** C9 as stated fails: an exception that is not an instance of
    [Exception] leaves [tavily_search]. *)
Lemma tavily_search_interrupt_escapes :
  ~ (forall (env : environment) (query : text) (e : exn),
       search_call env query = Raise e ->
       exists v w, tavily_search env query world0 = (Ret v, w)).
Proof.
  intros H.
  destruct (H (scripted (reply []) (reply []) (reply []) (reply [])
                 (Raise keyboard_interrupt)) (py "acme") keyboard_interrupt
              eq_refl) as (v & w & Hv).
  vm_compute in Hv. discriminate.
Qed.

(** C9 (amended): when the search call raises an instance of [Exception],
    [tavily_search] logs it and returns the mapping [{"error": str(e)}];
    no exception leaves the function.  An exception outside [Exception]
    (keyboard interrupt, exit request) is passed on. *)
Theorem tavily_search_catches_Exception
    (env : environment) (query : text) (e : exn) (w : world) :
  search_call env query = Raise e ->
  (isinstance_Exception e = true ->
   tavily_search env query w
   = (Ret (JObj [(py "error", JStr (str_exn e))]),
      extend w [Search query;
                Log ERROR (py "Tavily search error: " ++ str_exn e)]))
  /\ (isinstance_Exception e = false ->
      fst (tavily_search env query w) = Raise e).
Proof.
  unfold search_call. intros Hs.
  unfold_program. rewrite Hs.
  split; intros ->; cbv beta iota; [|reflexivity].
  now rewrite <- app_assoc.
Qed.

Lemma tavily_search_catches_Exception_witness :
  tavily_search
    (scripted (reply []) (reply []) (reply []) (reply [])
       (Raise connection_error)) (py "acme") world0
  = (Ret (JObj [(py "error", JStr (py "connection reset"))]),
     extend world0
       [Search (py "acme");
        Log ERROR (py "Tavily search error: connection reset")]).
Proof.
  apply (proj1 (tavily_search_catches_Exception
                  (scripted (reply []) (reply []) (reply []) (reply [])
                     (Raise connection_error))
                  (py "acme") connection_error world0 eq_refl)).
  reflexivity.
Defined.

(* ================================================================== *)
(** * The extractor *)

Lemma normal_form (pre body post : text) :
  pre ++ (LBRACE :: body ++ [RBRACE]) ++ post
  = pre ++ LBRACE :: body ++ RBRACE :: post.
Proof. cbn [app]. now rewrite <- app_assoc. Qed.

Lemma unfence_object_body (body : text) :
  contains FENCE (LBRACE :: body ++ [RBRACE]) = false -> unfence body = body.
Proof.
  intros H. apply unfence_absent.
  apply contains_tail, contains_app_l in H. exact H.
Qed.

(** C5 as stated fails: the two failures hand the same value, [None], to
    the caller. *)
Lemma both_failures_return_None :
  ~ (forall (raw1 raw2 : text) (w : world),
       re_search_braces (clean raw1) = None ->
       (exists j e, re_search_braces (clean raw2) = Some j
                    /\ loads j = Raise e) ->
       fst (clean_and_parse_json raw1 w) <> fst (clean_and_parse_json raw2 w)).
Proof.
  intros H.
  apply (H REFUSAL (py "{oops}") world0); [reflexivity| |reflexivity].
  exists (py "{oops}"), Decoder.decode_error. split; reflexivity.
Qed.

(** C5 (amended): when no brace-delimited span is found and when the span
    found is not valid JSON, the extractor returns the same value [None];
    the two failures differ only in what is printed and logged ("No JSON
    object found ..." against "Extracted JSON content ..." and "JSON Decode
    Error ..."). *)
Theorem failures_differ_only_in_reports
    (raw1 raw2 j : text) (e : exn) (w : world) :
  re_search_braces (clean raw1) = None ->
  re_search_braces (clean raw2) = Some j ->
  loads j = Raise e ->
  fst (clean_and_parse_json raw1 w) = Ret JNull
  /\ fst (clean_and_parse_json raw2 w) = Ret JNull
  /\ trace (snd (clean_and_parse_json raw1 w))
     = trace w ++ [Print (py "No JSON object found in the content");
                   Log ERROR (py "No JSON object found. Raw content: "
                              ++ clean raw1)]
  /\ trace (snd (clean_and_parse_json raw2 w))
     = trace w ++ extracted_notice j
       ++ [Print (py "JSON Decode Error: " ++ str_exn e);
           Print (py "Problematic content: " ++ firstn 500 j ++ py "...");
           Log ERROR (py "JSON Decode Error: " ++ str_exn e);
           Log ERROR (py "Problematic content: " ++ j)]
  /\ trace (snd (clean_and_parse_json raw1 w))
     <> trace (snd (clean_and_parse_json raw2 w)).
Proof.
  intros H1 H2 H3. rewrite !clean_and_parse_json_run.
  unfold extracted, extract. rewrite H1, H2, H3.
  cbn [fst snd returned reported extend trace].
  repeat split. intros Heq. apply app_inv_head in Heq.
  unfold extracted_notice in Heq. vm_compute in Heq. discriminate.
Qed.

Lemma failures_differ_only_in_reports_witness :
  fst (clean_and_parse_json REFUSAL world0) = Ret JNull
  /\ fst (clean_and_parse_json (py "{oops}") world0) = Ret JNull.
Proof.
  destruct (failures_differ_only_in_reports REFUSAL (py "{oops}")
              (py "{oops}") Decoder.decode_error world0
              eq_refl eq_refl eq_refl) as (H1 & H2 & _).
  split; assumption.
Defined.



(* ================================================================== *)
(** * The orchestrator *)


(** C2: the code stops before stages 3 and 4 when the extraction of stage
    1 or of stage 2 fails, but it leaves [main] at a [return] inside the
    [try] statement, so the save that follows the statement is not reached
    and no document is written: after a failure of stage 2 the accumulator
    holds [company_info] and [combined_analysis.json] is not written. *)
Theorem extraction_failure_skips_the_save :
  let run1 :=
    main literal_repr
      (scripted (reply REFUSAL) (reply PAINS) (reply PAINS) (reply SOLUTIONS)
         (Ret JNull)) world0 in
  let run2 :=
    main literal_repr
      (scripted (reply PROFILE) (reply REFUSAL) (reply PAINS) (reply SOLUTIONS)
         (Ret JNull)) world0 in
  (fst run1 = Ret tt
   /\ executed pain_point_analyzer (snd run1) = false
   /\ executed industry_challenges_identifier (snd run1) = false
   /\ executed solution_reporter (snd run1) = false
   /\ persisted (snd run1) = None)
  /\ (fst run2 = Ret tt
      /\ executed industry_challenges_identifier (snd run2) = false
      /\ executed solution_reporter (snd run2) = false
      /\ combined_output (snd run2)
         = [(py "company_info",
             JObj [(py "company_name", JStr (py "ACME"))])]
      /\ persisted (snd run2) = None).
Proof. vm_compute. repeat split. Qed.

(** C4 as stated fails: an exception that is not an instance of
    [Exception], raised while stage 2 runs, leaves [main] and nothing is
    written. *)
Lemma interrupt_in_stage_2_escapes_main :
  ~ (forall (float_repr : text -> text) (env : environment)
            (url : text) (e : exn) (w : world),
       input env URL_PROMPT = Ret url ->
       main_try float_repr env url (at_try url) = (Raise e, w) ->
       exists w', main float_repr env world0 = (Ret tt, w')
                  /\ persisted w' = Some (JObj (combined_output w))).
Proof.
  intros H.
  destruct (H literal_repr
              (scripted (reply PROFILE) (Raise keyboard_interrupt)
                 (reply PAINS) (reply SOLUTIONS) (Ret JNull))
              (py "https://acme.example") keyboard_interrupt
              (snd (main_try literal_repr
                      (scripted (reply PROFILE) (Raise keyboard_interrupt)
                         (reply PAINS) (reply SOLUTIONS) (Ret JNull))
                      (py "https://acme.example")
                      (at_try (py "https://acme.example"))))
              eq_refl) as (w' & Hmain & _).
  - vm_compute. reflexivity.
  - vm_compute in Hmain. discriminate.
Qed.

(** The guard around the call of [main] does not catch it either. *)
Lemma interrupt_escapes_script :
  let run :=
    script literal_repr
      (scripted (reply PROFILE) (Raise keyboard_interrupt) (reply PAINS)
         (reply SOLUTIONS) (Ret JNull)) world0 in
  fst run = Raise keyboard_interrupt /\ persisted (snd run) = None.
Proof. vm_compute. split; reflexivity. Qed.

(** C4 (amended): an exception that is an instance of [Exception] and is
    raised anywhere in the [try] statement (by a persona, by the access to
    its final message, by the extraction or by the vendor prompt) is caught
    by [main], logged with its traceback, and followed by the save of the
    accumulator as it is at that point; [main] returns normally.  When stage
    2 raises such an exception the persisted document has the single key
    [company_info].  Exceptions outside [Exception] are not caught. *)
Theorem exception_in_try_is_caught_and_saved
    (float_repr : text -> text) (env : environment) (url : text) :
  input env URL_PROMPT = Ret url ->
  (forall (e : exn) (w : world),
      main_try float_repr env url (at_try url) = (Raise e, w) ->
      isinstance_Exception e = true ->
      exists w',
        main float_repr env world0 = (Ret tt, w')
        /\ In (LogException (py "Exception details:") e) (trace w')
        /\ combined_output w' = combined_output w
        /\ persisted w' = Some (JObj (combined_output w)))
  /\ (forall (raw1 : text) (e : exn),
         answers env info_extractor (info_messages url) raw1 ->
         truthy (extracted raw1) = true ->
         client_run env pain_point_analyzer
           (pain_messages float_repr (extracted raw1)) = Raise e ->
         isinstance_Exception e = true ->
         exists w',
           main float_repr env world0 = (Ret tt, w')
           /\ executed industry_challenges_identifier w' = false
           /\ executed solution_reporter w' = false
           /\ persisted w'
              = Some (JObj [(py "company_info", extracted raw1)])).
Proof.
  intros Hurl. split.
  - intros e w Htry He. rewrite (main_run _ _ _ Hurl), Htry, He.
    eexists. split; [reflexivity|]. split; [|split].
    + cbn [extend trace]. apply in_or_app. right. simpl. tauto.
    + reflexivity.
    + unfold persisted. cbn [extend trace]. rewrite persisted_in_app.
      reflexivity.
  - intros raw1 e H1 T1 H2 He. rewrite (main_run _ _ _ Hurl).
    remember (extracted raw1) as v1.
    unfold_program. stage H1. rewrite <- Heqv1, T1. unfold_program.
    rewrite H2. unfold_program. rewrite He.
    eexists. split; [reflexivity|]. repeat split; observe; reflexivity.
Qed.

Lemma exception_in_try_is_caught_and_saved_witness :
  exists w',
    main literal_repr
      (scripted (reply PROFILE) (Raise connection_error) (reply PAINS)
         (reply SOLUTIONS) (Ret JNull)) world0 = (Ret tt, w')
    /\ executed industry_challenges_identifier w' = false
    /\ executed solution_reporter w' = false
    /\ persisted w' = Some (JObj [(py "company_info", extracted PROFILE)]).
Proof.
  apply (proj2 (exception_in_try_is_caught_and_saved literal_repr
                  (scripted (reply PROFILE) (Raise connection_error)
                     (reply PAINS) (reply SOLUTIONS) (Ret JNull))
                  (py "https://acme.example") eq_refl)
           PROFILE connection_error);
    try reflexivity.
  eexists; split; reflexivity.
Defined.

(** The accumulator at the end of the run is the last value of its
    history. *)
Lemma main_history_last (float_repr : text -> text) (env : environment) :
  let w := snd (main float_repr env world0) in
  co_history w = [] \/ last (co_history w) [] = combined_output w.
Proof.
  explore; cbn [snd co_history combined_output app last];
    first [now left | now right].
Qed.

(** C8: in every run the accumulator only grows: an entry that it holds at
    some point is held, with the same value, at every later point of the
    run, whatever fails afterwards. *)
Theorem accumulator_only_grows
    (float_repr : text -> text) (env : environment)
    (i j : nat) (d d' : pydict) :
  (i <= j)%nat ->
  nth_error (co_history (snd (main float_repr env world0))) i = Some d ->
  nth_error (co_history (snd (main float_repr env world0))) j = Some d' ->
  extends d d'.
Proof.
  intros Hij Hi Hj.
  exact (chain_pairs _ (main_history_chain float_repr env) i j d d' Hij Hi Hj).
Qed.

Lemma accumulator_only_grows_witness :
  extends
    [(py "company_info", extracted PROFILE)]
    [(py "company_info", extracted PROFILE);
     (py "pain_points", extracted PAINS);
     (py "industry_challenges", PARSE_ERROR_PLACEHOLDER);
     (py "selling_company", JStr (py "Initech"))].
Proof.
  apply (accumulator_only_grows literal_repr
           (scripted (reply PROFILE) (reply PAINS) (reply REFUSAL)
              (reply REFUSAL) (Ret JNull)) 1 4);
    [lia | vm_compute; reflexivity | vm_compute; reflexivity].
Defined.

(* ================================================================== *)
(** * The decoder: what does not depend on the values *)

Module DecoderShape.
Import Decoder.

(** The state with its values forgotten: what is left decides which texts
    are accepted. *)
Definition skel_frame (f : frame) : frame :=
  match f with
  | FArr _ => FArr []
  | FObjK _ => FObjK []
  | FObjV _ _ => FObjV [] []
  end.

Definition skel_lex (l : lex) : lex :=
  match l with
  | LStr iskey _ _ m =>
      LStr iskey [] None (match m with SUni k _ => SUni k 0 | _ => m end)
  | LColon _ => LColon []
  | LNum _ ns _ => LNum false (match ns with NInt _ => NInt 0 | _ => ns end) []
  | LLit l k => LLit (match l with LitNegInf => LitInf | _ => l end) k
  | LAfter _ => LAfter JNull
  | _ => l
  end.

Definition skel (st : state) : state :=
  (skel_lex (fst st), map skel_frame (snd st)).

Definition failed (st : state) : bool :=
  match fst st with
  | LErr => true
  | _ => false
  end.

(** Between two characters of a string. *)
Definition in_string (st : state) : bool :=
  match fst st with
  | LStr _ _ _ SPlain => true
  | _ => false
  end.

(** A character that stands for itself inside a string. *)
Definition plain (c : N) : bool :=
  negb (c =? 34) && negb (c =? 92) && negb (c <? 32).

(** After a complete top-level value: only white space may follow. *)
Definition at_end (st : state) : bool :=
  match st with
  | (LAfter _, []) => true
  | (LErr, []) => true
  | (LNum _ ns _, []) => match ns with NSign => false | _ => true end
  | _ => false
  end.

Lemma map_skel_idem (K : list frame) :
  map skel_frame (map skel_frame K) = map skel_frame K.
Proof. rewrite map_map. apply map_ext. intros []; reflexivity. Qed.

Ltac same_shape :=
  unfold skel, str_done, emit, err;
  cbn [fst snd skel_lex map skel_frame];
  rewrite ?map_skel_idem; reflexivity.

Lemma skel_after_value (v v' : json) (K : list frame) (c : N) :
  skel (after_value v (map skel_frame K) c) = skel (after_value v' K c).
Proof.
  unfold after_value. destruct (is_ws c); [same_shape|].
  destruct K as [|[acc|acc|acc key] K]; cbn [map skel_frame]; try reflexivity;
    destruct (c =? 44); try same_shape;
    [destruct (c =? 93)|destruct (c =? RBRACE)]; same_shape.
Qed.

Lemma skel_start_value (K : list frame) (c : N) :
  skel (start_value (map skel_frame K) c) = skel (start_value K c).
Proof.
  unfold start_value.
  repeat match goal with
         | |- context [if ?b then _ else _] => destruct b; [same_shape|]
         end.
  destruct (digit c); [same_shape|].
  repeat match goal with
         | |- context [if ?b then _ else _] => destruct b; [same_shape|]
         end.
  reflexivity.
Qed.

Lemma skel_step (st : state) (c : N) :
  skel (step (skel st) c) = skel (step st c).
Proof.
  destruct st as [l K]. destruct l; unfold skel at 2; cbn [fst snd skel_lex step].
  - destruct (is_ws c); [same_shape|apply skel_start_value].
  - destruct (is_ws c); [same_shape|]. destruct (c =? 93).
    + destruct K as [|[]]; same_shape.
    + apply skel_start_value.
  - destruct (is_ws c); [same_shape|]. destruct (c =? 34); [same_shape|].
    destruct (c =? RBRACE); [|same_shape]. destruct K as [|[]]; same_shape.
  - destruct (is_ws c); [same_shape|]. destruct (c =? 34); same_shape.
  - unfold str_step. destruct m as [| |k u].
    + destruct (c =? 34); [destruct iskey; same_shape|].
      destruct (c =? 92); [same_shape|]. destruct (c <? 32); same_shape.
    + destruct (c =? 117); [same_shape|]. destruct (unescape c); same_shape.
    + destruct (hexval c) as [d|]; [|same_shape].
      destruct k as [|[|[|[|k]]]]; try same_shape.
      unfold emit. destruct hi as [h|];
        repeat match goal with
               | |- context [if ?b then _ else _] => destruct b
               end; same_shape.
  - destruct (is_ws c); [same_shape|]. destruct (c =? 58); [|same_shape].
    destruct K as [|[]]; same_shape.
  - unfold num_step.
    destruct ns; cbn [num_value];
      repeat match goal with
             | |- context [digit c] => destruct (digit c)
             | |- context [if ?b then _ else _] => destruct b
             end;
      try same_shape; apply skel_after_value.
  - unfold lit_step. destruct l; cbn [lit_rest];
      destruct (nth_error _ k); try same_shape;
      destruct (c =? n); try same_shape;
      match goal with |- context [Nat.eqb ?a ?b] => destruct (Nat.eqb a b) end;
      same_shape.
  - apply skel_after_value.
  - same_shape.
Qed.

Lemma run_cons (st : state) (c : N) (s : text) :
  run st (c :: s) = run (step st c) s.
Proof. reflexivity. Qed.

Lemma skel_run (s : text) (st : state) :
  skel (run (skel st) s) = skel (run st s).
Proof.
  revert st. induction s as [|c s IH]; intros st.
  - cbn [run fold_left].
    destruct st as [l K]. destruct l as [| | | |? ? ? []| | ? [] ?|[]| |];
      same_shape.
  - rewrite !run_cons.
    rewrite <- (IH (step (skel st) c)), <- (IH (step st c)).
    now rewrite skel_step.
Qed.

(** States of the same shape stay of the same shape. *)
Lemma skel_run_eq (s : text) (st st' : state) :
  skel st = skel st' -> skel (run st s) = skel (run st' s).
Proof.
  intros H. now rewrite <- (skel_run s st), <- (skel_run s st'), H.
Qed.

Lemma failed_skel (st : state) : failed (skel st) = failed st.
Proof. destruct st as [[] K]; reflexivity. Qed.

Lemma at_end_skel (st : state) : at_end (skel st) = at_end st.
Proof.
  destruct st as [l K].
  destruct l as [| | | | | |? [] ?| | |]; destruct K; reflexivity.
Qed.

Lemma run_app (st : state) (a b : text) :
  run st (a ++ b) = run (run st a) b.
Proof. apply fold_left_app. Qed.

Lemma run_failed (s : text) (st : state) :
  failed st = true -> failed (run st s) = true.
Proof.
  revert st. induction s as [|c s IH]; intros st H; [exact H|].
  rewrite run_cons. apply IH.
  destruct st as [[] K]; try discriminate. reflexivity.
Qed.

Lemma finish_failed (st : state) :
  failed st = true -> finish st = Raise decode_error.
Proof. destruct st as [[] K]; try discriminate. reflexivity. Qed.

Lemma finish_at_end (st : state) (v : json) :
  finish st = Ret v -> at_end st = true /\ failed st = false.
Proof.
  destruct st as [l K]. destruct l; destruct K; try discriminate;
    cbn [finish at_end failed fst]; auto.
  destruct ns; cbn [num_value]; try discriminate; auto.
Qed.

(** A character that only a string can hold keeps the decoder inside the
    string, or makes it fail. *)
Lemma step_backtick (st : state) :
  failed (step st BACKTICK) = false ->
  in_string st = true.
Proof.
  destruct st as [l K].
  destruct l as [| | | |iskey acc hi m|key|neg ns lit|l k|v|]; intros H;
    try (cbv in H; discriminate H).
  - destruct m as [| |k u]; [reflexivity|cbv in H; discriminate H|].
    destruct k as [|[|[|[|k]]]]; cbv in H; discriminate H.
  - destruct ns; destruct K as [|[] K]; cbv in H; discriminate H.
  - destruct l; do 8 (try destruct k as [|k]); cbv in H; discriminate H.
  - destruct K as [|[] K]; cbv in H; discriminate H.
Qed.

Lemma step_plain (st : state) (c : N) :
  in_string st = true -> plain c = true ->
  skel (step st c) = skel st /\ in_string (step st c) = true.
Proof.
  destruct st as [l K]. destruct l; try discriminate.
  destruct m; try discriminate. intros _ Hc.
  unfold plain in Hc. apply andb_true_iff in Hc as [Hc H3].
  apply andb_true_iff in Hc as [H1 H2].
  apply negb_true_iff in H1, H2, H3.
  cbn [step str_step]. rewrite H1, H2, H3. split; reflexivity.
Qed.

Lemma run_plain (p : text) (st : state) :
  in_string st = true -> forallb plain p = true ->
  skel (run st p) = skel st.
Proof.
  revert st. induction p as [|c p IH]; intros st Hs Hp; [reflexivity|].
  cbn [forallb] in Hp. apply andb_true_iff in Hp as [Hc Hp].
  destruct (step_plain st c Hs Hc) as [H1 H2].
  rewrite run_cons, (IH _ H2 Hp). exact H1.
Qed.

Lemma starts_with_skipn (p s : text) :
  starts_with p s = true -> s = p ++ skipn (length p) s.
Proof.
  revert s. induction p as [|x p IH]; intros s H; [reflexivity|].
  destruct s as [|y s]; [discriminate|]. cbn [starts_with] in H.
  apply andb_true_iff in H as [H1 H2]. apply N.eqb_eq in H1. subst y.
  cbn [length skipn app]. f_equal. now apply IH.
Qed.

(** Removing a fence, which starts with a backtick and is made of plain
    characters, from a text that the decoder does not reject leaves the
    decoder in a state of the same shape. *)
Lemma run_replace (p : text) :
  forallb plain (BACKTICK :: p) = true ->
  forall (s : text) (st st' : state),
    skel st = skel st' ->
    failed (run st s) = false ->
    skel (run st' (replace (BACKTICK :: p) [] s)) = skel (run st s).
Proof.
  intros Hp s. remember (length s) as n eqn:Hn. revert s Hn.
  induction n as [n IH] using lt_wf_ind. intros s Hn st st' Hsk Hok.
  assert (Hne : BACKTICK :: p <> []) by discriminate.
  rewrite (replace_unfold _ Hne).
  destruct (starts_with (BACKTICK :: p) s) eqn:E.
  - pose proof (starts_with_skipn _ _ E) as Hs.
    cbn [app]. rewrite Hs in Hok |- * at 2. rewrite run_app in Hok |- *.
    assert (Hmid : failed (run st (BACKTICK :: p)) = false).
    { destruct (failed (run st (BACKTICK :: p))) eqn:F; [|reflexivity].
      now rewrite (run_failed _ _ F) in Hok. }
    assert (Hin : in_string st = true).
    { apply step_backtick.
      destruct (failed (step st BACKTICK)) eqn:F; [|reflexivity].
      rewrite run_cons in Hmid.
      now rewrite (run_failed p _ F) in Hmid. }
    apply (IH (length (skipn (length (BACKTICK :: p)) s)));
      [rewrite length_skipn; cbn [length]; subst n;
       apply starts_with_length in E; cbn [length] in E; lia
      |reflexivity| |exact Hok].
    rewrite (run_plain _ _ Hin Hp). exact Hsk.
  - destruct s as [|c s].
    + cbn [run fold_left]. now symmetry.
    + rewrite !run_cons. rewrite run_cons in Hok.
      apply (IH (length s)); [subst n; cbn [length]; lia|reflexivity| |exact Hok].
      rewrite <- (skel_step st), <- (skel_step st'), Hsk. reflexivity.
Qed.

(** The fences removed, an accepted text is still accepted. *)
Lemma run_unfence (s : text) (st : state) :
  failed (run st s) = false ->
  skel (run st (unfence s)) = skel (run st s).
Proof.
  intros Hok. unfold unfence.
  assert (H1 : skel (run st (replace FENCE_JSON [] s)) = skel (run st s)).
  { apply (run_replace (py "``json")); [reflexivity|reflexivity|exact Hok]. }
  rewrite <- H1.
  apply (run_replace (py "``")); [reflexivity|reflexivity|].
  rewrite <- failed_skel, H1, failed_skel. exact Hok.
Qed.

Lemma step_at_end (st : state) (c : N) :
  at_end st = true ->
  at_end (step st c) = true
  /\ (c = LBRACE -> failed (step st c) = true).
Proof.
  destruct st as [l K]. destruct l; destruct K; try discriminate.
  - (* a number *)
    destruct ns; try discriminate; intros _;
      cbn [step num_step num_value]; unfold after_value;
      (split; [|intros ->; reflexivity]);
      repeat match goal with
             | |- context [digit c] => destruct (digit c)
             | |- context [if ?b then _ else _] => destruct b
             end; reflexivity.
  - intros _. cbn [step]. unfold after_value.
    split; [|intros ->; reflexivity]. destruct (is_ws c); reflexivity.
  - intros _. split; reflexivity.
Qed.

(** Extra data: nothing with a brace may follow a complete value. *)
Lemma run_extra_data (s : text) (st : state) :
  at_end st = true -> In LBRACE s -> failed (run st s) = true.
Proof.
  revert st. induction s as [|c s IH]; intros st He Hin; [destruct Hin|].
  rewrite run_cons. destruct (step_at_end st c He) as [H1 H2].
  destruct Hin as [Hc | Hin].
  - apply run_failed. now apply H2.
  - now apply IH.
Qed.

End DecoderShape.

Module DecoderObject.
Import Decoder.

(** The outermost frame is the frame of an object. *)
Fixpoint object_based (K : list frame) : bool :=
  match K with
  | [] => false
  | f :: K' =>
      match K' with
      | [] => match f with FArr _ => false | _ => true end
      | _ => object_based K'
      end
  end.

(** The text read so far started with an opening brace. *)
Definition object_run (st : state) : bool :=
  match snd st with
  | [] => match fst st with
          | LErr => true
          | LAfter (JObj _) => true
          | _ => false
          end
  | K => object_based K
  end.

Ltac split_cases :=
  repeat match goal with
         | |- context [match ?x with _ => _ end] =>
             is_var x; destruct x
         | |- context [if ?b then _ else _] => destruct b
         | |- context [match digit ?c with _ => _ end] => destruct (digit c)
         | |- context [match hexval ?c with _ => _ end] => destruct (hexval c)
         | |- context [match unescape ?c with _ => _ end] => destruct (unescape c)
         | |- context [match nth_error ?l ?k with _ => _ end] =>
             destruct (nth_error l k)
         end.

Lemma step_object_run (st : state) (c : N) :
  object_run st = true -> object_run (step st c) = true.
Proof.
  destruct st as [l K]. destruct K as [|f K].
  - destruct l; try discriminate.
    + destruct v; try discriminate. intros _. cbn [step]. unfold after_value.
      destruct (is_ws c); reflexivity.
    + reflexivity.
  - intros H.
    assert (Hpush : forall f' l', object_run (l', f' :: f :: K) = true).
    { intros f' l'. exact H. }
    assert (Hsame : forall l', object_run (l', f :: K) = true).
    { intros l'. exact H. }
    assert (Hswap : forall l' f',
               (match f, f' with FArr _, FArr _ => true | FArr _, _ => false
                            | _, FArr _ => false | _, _ => true end) = true ->
               object_run (l', f' :: K) = true).
    { intros l' f' Hk. unfold object_run in H |- *. cbn [snd] in H |- *.
      cbn [object_based] in H |- *. destruct K; [|exact H].
      destruct f, f'; try discriminate; reflexivity. }
    assert (Hpop : forall acc, f = FArr acc ->
               forall v, object_run (LAfter v, K) = true).
    { intros acc -> v. unfold object_run in H |- *. cbn [fst snd] in H |- *.
      cbn [object_based] in H. destruct K; [discriminate|exact H]. }
    assert (Hpopo : forall d, (match f with FArr _ => false | _ => true end) = true ->
               object_run (LAfter (JObj d), K) = true).
    { intros d Hf. unfold object_run in H |- *. cbn [fst snd] in H |- *.
      cbn [object_based] in H. destruct K; [reflexivity|exact H]. }
    destruct l; cbn [step].
    + destruct (is_ws c); [apply Hsame|]. unfold start_value.
      split_cases; first [apply Hpush | apply Hsame | reflexivity].
    + destruct (is_ws c); [apply Hsame|]. destruct (c =? 93).
      * destruct f; try reflexivity. now apply (Hpop acc).
      * unfold start_value.
        split_cases; first [apply Hpush | apply Hsame | reflexivity].
    + destruct (is_ws c); [apply Hsame|]. destruct (c =? 34); [apply Hsame|].
      destruct (c =? RBRACE); [|reflexivity].
      destruct f; try reflexivity. now apply Hpopo.
    + destruct (is_ws c); [apply Hsame|]. destruct (c =? 34); [apply Hsame|].
      reflexivity.
    + unfold str_step, str_done, emit.
      split_cases; first [apply Hsame | reflexivity].
    + destruct (is_ws c); [apply Hsame|]. destruct (c =? 58); [|reflexivity].
      destruct f; try reflexivity. now apply Hswap.
    + unfold num_step, after_value.
      destruct ns; cbn [num_value]; destruct f;
        split_cases;
        first [apply Hsame | reflexivity | now apply Hswap
              | now apply Hpopo | eapply Hpop; reflexivity ].
    + unfold lit_step. split_cases; first [apply Hsame | reflexivity].
    + unfold after_value. destruct f;
        split_cases;
        first [apply Hsame | reflexivity | now apply Hswap
              | now apply Hpopo | eapply Hpop; reflexivity ].
    + reflexivity.
Qed.

Lemma run_object_run (s : text) (st : state) :
  object_run st = true -> object_run (run st s) = true.
Proof.
  revert st. induction s as [|c s IH]; intros st H; [exact H|].
  rewrite DecoderShape.run_cons. apply IH. now apply step_object_run.
Qed.

End DecoderObject.

(** A text that starts with an opening brace is read as an object. *)
Lemma loads_object (s : text) (v : json) :
  loads (LBRACE :: s) = Ret v -> exists d, v = JObj d.
Proof.
  unfold loads. rewrite DecoderShape.run_cons.
  change (Decoder.step Decoder.init LBRACE)
    with (Decoder.LObjFirst, [Decoder.FObjK []]).
  intros H.
  assert (Ho := DecoderObject.run_object_run s
                  (Decoder.LObjFirst, [Decoder.FObjK []]) eq_refl).
  destruct (Decoder.run (Decoder.LObjFirst, [Decoder.FObjK []]) s) as [l K].
  destruct l; destruct K; try discriminate H;
    try (cbv in Ho; discriminate Ho).
  cbn [Decoder.finish] in H. injection H as <-.
  destruct v0; try (cbv in Ho; discriminate Ho). now eexists.
Qed.

(** Two objects in one span: the decoder meets extra data after the
    first one. *)
Lemma loads_two_objects (b1 mid b2 : text) (v1 : json) :
  loads (LBRACE :: b1 ++ [RBRACE]) = Ret v1 ->
  loads (LBRACE :: unfence (b1 ++ RBRACE :: mid ++ LBRACE :: b2) ++ [RBRACE])
  = Raise Decoder.decode_error.
Proof.
  intros H1.
  rewrite unfence_split by now right. rewrite unfence_split by now left.
  replace (LBRACE :: (unfence b1 ++ RBRACE :: unfence mid ++ LBRACE :: unfence b2)
                     ++ [RBRACE])
    with (unfence (LBRACE :: b1 ++ [RBRACE])
          ++ unfence mid ++ LBRACE :: unfence b2 ++ [RBRACE]).
  2:{ change (LBRACE :: b1 ++ [RBRACE]) with ([] ++ LBRACE :: b1 ++ [RBRACE]).
      rewrite unfence_split by now left.
      rewrite unfence_split by now right.
      change (unfence []) with (@nil N).
      cbn [app]. rewrite <- !app_assoc. cbn [app]. rewrite <- !app_assoc.
      reflexivity. }
  unfold loads in *. rewrite DecoderShape.run_app.
  apply DecoderShape.finish_failed.
  destruct (DecoderShape.finish_at_end _ _ H1) as [He Hf].
  apply DecoderShape.run_extra_data.
  - rewrite <- DecoderShape.at_end_skel, DecoderShape.run_unfence by exact Hf.
    now rewrite DecoderShape.at_end_skel.
  - apply in_or_app. right. now left.
Qed.

(** C10: on a raw text with two well-formed JSON objects separated by prose
    without braces, the span located runs from the opening brace of the first
    object to the closing brace of the second; it covers both objects and the
    prose between them, it is not valid JSON, and the extractor returns the
    malformed-JSON failure, not the first object. *)
Theorem two_objects_give_malformed_failure
    (pre b1 mid b2 post : text) (v1 v2 : json) (w : world) :
  brace_free pre = true -> brace_free mid = true -> brace_free post = true ->
  loads (LBRACE :: b1 ++ [RBRACE]) = Ret v1 ->
  loads (LBRACE :: b2 ++ [RBRACE]) = Ret v2 ->
  let raw := pre ++ (LBRACE :: b1 ++ [RBRACE]) ++ mid
             ++ (LBRACE :: b2 ++ [RBRACE]) ++ post in
  let span := unfence (LBRACE :: b1 ++ [RBRACE]) ++ unfence mid
              ++ unfence (LBRACE :: b2 ++ [RBRACE]) in
  re_search_braces (clean raw) = Some span
  /\ loads span = Raise Decoder.decode_error
  /\ clean_and_parse_json raw w
     = (Ret JNull, extend w (reported (MalformedJson span Decoder.decode_error)))
  /\ fst (clean_and_parse_json raw w) <> Ret v1.
Proof.
  intros Hpre Hmid Hpost H1 H2 raw span.
  assert (Hraw : raw = pre ++ LBRACE :: (b1 ++ RBRACE :: mid ++ LBRACE :: b2)
                       ++ RBRACE :: post).
  { unfold raw. cbn [app]. rewrite <- !app_assoc. cbn [app].
    rewrite <- !app_assoc. reflexivity. }
  assert (Hspan : span = LBRACE :: unfence (b1 ++ RBRACE :: mid ++ LBRACE :: b2)
                         ++ [RBRACE]).
  { unfold span.
    change (LBRACE :: b1 ++ [RBRACE]) with ([] ++ LBRACE :: b1 ++ [RBRACE]).
    change (LBRACE :: b2 ++ [RBRACE]) with ([] ++ LBRACE :: b2 ++ [RBRACE]).
    repeat first [ rewrite (unfence_split LBRACE) by (now left)
                 | rewrite (unfence_split RBRACE) by (now right) ].
    change (unfence []) with (@nil N).
    cbn [app]. rewrite <- !app_assoc. cbn [app]. rewrite <- !app_assoc.
    reflexivity. }
  assert (Hsearch : re_search_braces (clean raw) = Some span).
  { rewrite Hraw, Hspan. now apply search_clean. }
  assert (Hloads : loads span = Raise Decoder.decode_error).
  { rewrite Hspan. now apply (loads_two_objects b1 mid b2 v1). }
  assert (Hrun : clean_and_parse_json raw w
                 = (Ret JNull,
                    extend w (reported (MalformedJson span Decoder.decode_error)))).
  { rewrite clean_and_parse_json_run. unfold extracted, extract.
    now rewrite Hsearch, Hloads. }
  repeat split; try assumption.
  rewrite Hrun. cbn [fst]. destruct (loads_object _ _ H1) as [d ->].
  discriminate.
Qed.

Lemma two_objects_give_malformed_failure_witness :
  fst (clean_and_parse_json
         (py "First: " ++ (LBRACE :: pyq "'a': 1" ++ [RBRACE]) ++ py " and "
          ++ (LBRACE :: pyq "'b': 2" ++ [RBRACE]) ++ py ".") world0)
  <> Ret (JObj [(py "a", JInt 1)]).
Proof.
  apply (two_objects_give_malformed_failure
           (py "First: ") (pyq "'a': 1") (py " and ") (pyq "'b': 2") (py ".")
           (JObj [(py "a", JInt 1)]) (JObj [(py "b", JInt 2)]) world0);
    reflexivity.
Defined.

(* ================================================================== *)
(** * Reading back what [json.dumps] writes *)

(** Induction on a value and on the values inside it. *)
Definition json_induction (P : json -> Prop)
    (HNull : P JNull) (HBool : forall b, P (JBool b))
    (HInt : forall z, P (JInt z)) (HFloat : forall lit, P (JFloat lit))
    (HStr : forall s, P (JStr s))
    (HArr : forall l, Forall P l -> P (JArr l))
    (HObj : forall d, Forall (fun kv => P (snd kv)) d -> P (JObj d))
    : forall v, P v :=
  fix prove (v : json) : P v :=
    match v with
    | JNull => HNull
    | JBool b => HBool b
    | JInt z => HInt z
    | JFloat lit => HFloat lit
    | JStr s => HStr s
    | JArr l =>
        HArr l ((fix each (l : list json) : Forall P l :=
                   match l with
                   | [] => Forall_nil P
                   | x :: l' => Forall_cons x (prove x) (each l')
                   end) l)
    | JObj d =>
        HObj d ((fix each (d : list (text * json))
                   : Forall (fun kv => P (snd kv)) d :=
                   match d with
                   | [] => Forall_nil _
                   | kv :: d' => Forall_cons kv (prove (snd kv)) (each d')
                   end) d)
    end.

Module RoundTrip.
Import Decoder Encoder.

Ltac arith := zify; Z.to_euclidean_division_equations; lia.

(** The characters that may follow a value. *)
Definition closes (c : N) : bool :=
  is_ws c || (c =? 44) || (c =? 93) || (c =? RBRACE).

(** [st] is the state after the text of [v] in the context [K]: the
    decoder goes on as it does after the value. *)
Definition delivers (st : state) (v : json) (K : list frame) : Prop :=
  (forall c, closes c = true -> step st c = after_value v K c)
  /\ finish st = finish (LAfter v, K).

Lemma delivers_after (v : json) (K : list frame) : delivers (LAfter v, K) v K.
Proof. split; reflexivity. Qed.

(** ** Integers *)

Lemma size_nat_bound (n : N) : n < 2 ^ N.of_nat (N.size_nat n).
Proof.
  destruct n as [|p]; [reflexivity|].
  induction p as [p IH|p IH|]; cbn [N.size_nat Pos.size_nat] in *.
  - rewrite Nat2N.inj_succ, N.pow_succ_r'. lia.
  - rewrite Nat2N.inj_succ, N.pow_succ_r'. lia.
  - reflexivity.
Qed.

Lemma digit_char (d : N) : d < 10 -> digit (48 + d) = Some d.
Proof.
  intros H. unfold digit.
  replace ((48 <=? 48 + d) && (48 + d <=? 57)) with true.
  - f_equal. lia.
  - symmetry. apply andb_true_iff. split; apply N.leb_le; lia.
Qed.

(** The digits of a positive number, read from a state that takes a
    first digit as [LValue] and ["-"] do. *)
Lemma run_digits (neg : bool) (lit0 : text) (K : list frame) (st0 : state) :
  (forall d, 0 < d -> d < 10 ->
             step st0 (48 + d) = (LNum neg (NInt d) (lit0 ++ [48 + d]), K)) ->
  forall (fuel : nat) (n : N),
    0 < n -> n < 2 ^ N.of_nat fuel ->
    run st0 (digits_fuel fuel n)
    = (LNum neg (NInt n) (lit0 ++ digits_fuel fuel n), K).
Proof.
  intros Hfirst fuel. induction fuel as [|fuel IH]; intros n Hpos Hlt.
  - cbn in Hlt. lia.
  - cbn [digits_fuel]. destruct (n <? 10) eqn:E.
    + apply N.ltb_lt in E. cbn [app run fold_left].
      replace (n mod 10) with n by (symmetry; apply N.mod_small; lia).
      now apply Hfirst.
    + apply N.ltb_ge in E. rewrite DecoderShape.run_app.
      rewrite IH.
      * cbn [run fold_left step num_step].
        rewrite digit_char by arith.
        rewrite <- app_assoc. do 3 f_equal. arith.
      * arith.
      * rewrite Nat2N.inj_succ, N.pow_succ_r' in Hlt. arith.
Qed.

Lemma closes_not_digit (c : N) : closes c = true -> digit c = None.
Proof.
  unfold closes, is_ws, digit, RBRACE. intros H.
  repeat (apply orb_true_iff in H as [H|H]); apply N.eqb_eq in H; subst c;
    reflexivity.
Qed.

Lemma closes_cases (c : N) :
  closes c = true -> (c =? 46) = false /\ is_e c = false.
Proof.
  unfold closes, is_ws, is_e, RBRACE. intros H.
  repeat (apply orb_true_iff in H as [H|H]); apply N.eqb_eq in H; subst c;
    split; reflexivity.
Qed.

Lemma delivers_int (neg : bool) (n : N) (lit : text) (K : list frame) :
  delivers (LNum neg (NInt n) lit, K)
    (JInt (if neg then - Z.of_N n else Z.of_N n)) K.
Proof.
  split.
  - intros c Hc. cbn [step num_step num_value].
    rewrite (closes_not_digit _ Hc).
    destruct (closes_cases _ Hc) as [-> ->]. reflexivity.
  - destruct K; reflexivity.
Qed.

Lemma run_int (z : Z) (K : list frame) :
  delivers (run (LValue, K) (str_of_Z z)) (JInt z) K.
Proof.
  destruct z as [|p|p].
  - cbn. split; [|destruct K; reflexivity].
    intros c Hc. cbn [step num_step num_value].
    destruct (closes_cases _ Hc) as [-> ->]. reflexivity.
  - unfold str_of_Z, str_of_N. cbn [Z.to_N].
    rewrite (run_digits false [] K).
    + apply (delivers_int false (N.pos p)).
    + intros d H0 H10. cbn [step]. unfold is_ws, start_value, LBRACE.
      rewrite digit_char by assumption.
      repeat match goal with
             | |- context [(?a =? ?b)] =>
                 replace (a =? b) with false by (symmetry; apply N.eqb_neq; lia)
             end.
      reflexivity.
    + lia.
    + rewrite Nat2N.inj_succ, N.pow_succ_r'.
      pose proof (size_nat_bound (N.pos p)). lia.
  - unfold str_of_Z, str_of_N. rewrite DecoderShape.run_cons.
    change (step (LValue, K) 45) with (LNum true NSign [45], K).
    rewrite (run_digits true [45] K).
    + apply (delivers_int true (N.pos p)).
    + intros d H0 H10. cbn [step num_step].
      rewrite digit_char by assumption.
      replace (48 + d =? 48) with false by (symmetry; apply N.eqb_neq; lia).
      reflexivity.
    + lia.
    + rewrite Nat2N.inj_succ, N.pow_succ_r'.
      pose proof (size_nat_bound (N.pos p)). lia.
Qed.

(** ** Strings *)

Lemma hexval_hexdigit (d : N) : d < 16 -> hexval (hexdigit d) = Some d.
Proof.
  intros H. destruct d as [|p]; [reflexivity|].
  do 5 (try (destruct p as [p|p|]; try reflexivity; try lia)).
Qed.

(** The state after an escape [\uXXXX] of value [u]. *)
Definition uni_done (iskey : bool) (acc : text) (hi : option N) (u : N)
    (K : list frame) : state :=
  match hi with
  | Some h =>
      if is_low u
      then (LStr iskey (acc ++ [join_surrogates h u]) None SPlain, K)
      else emit iskey (acc ++ [h]) u K
  | None => emit iskey acc u K
  end.

Lemma step_hex (iskey : bool) (acc : text) (hi : option N) (k : nat)
    (u d : N) (K : list frame) :
  d < 16 ->
  step (LStr iskey acc hi (SUni k u), K) (hexdigit d)
  = match k with
    | 3%nat => uni_done iskey acc hi (16 * u + d) K
    | _ => (LStr iskey acc hi (SUni (S k) (16 * u + d)), K)
    end.
Proof.
  intros Hd. cbn [step str_step]. rewrite (hexval_hexdigit _ Hd).
  reflexivity.
Qed.

Lemma run_esc_u (iskey : bool) (acc : text) (hi : option N) (u : N)
    (K : list frame) :
  u < 0x10000 ->
  run (LStr iskey acc hi SPlain, K) (esc_u u) = uni_done iskey acc hi u K.
Proof.
  intros Hu. unfold esc_u, hex4.
  rewrite !DecoderShape.run_cons.
  change (step (LStr iskey acc hi SPlain, K) 92) with (LStr iskey acc hi SEsc, K).
  change (step (LStr iskey acc hi SEsc, K) 117)
    with (LStr iskey acc hi (SUni 0 0), K).
  cbn [run fold_left].
  do 4 (rewrite step_hex by arith; cbv iota).
  replace (16 * (16 * (16 * (16 * 0 + u / 4096 mod 16) + u / 256 mod 16)
                 + u / 16 mod 16) + u mod 16) with u by arith.
  reflexivity.
Qed.

(** One character of a string, written by the encoder and read back. *)
Lemma run_encode_char (iskey : bool) (K : list frame) (c : N)
    (acc : text) (hi : option N) :
  c < 0x110000 ->
  (hi <> None -> is_low c = false) ->
  exists acc' hi',
    run (LStr iskey acc hi SPlain, K) (encode_char c)
    = (LStr iskey acc' hi' SPlain, K)
    /\ flush acc' hi' = flush acc hi ++ [c]
    /\ (hi' <> None -> is_high c = true).
Proof.
  intros Hc Hlow. unfold encode_char.
  assert (Hesc : forall x y, unescape x = Some y ->
            (x =? 117) = false ->
            run (LStr iskey acc hi SPlain, K) [92; x]
            = (LStr iskey (flush acc hi ++ [y]) None SPlain, K)).
  { intros x y Hx Hu. rewrite !DecoderShape.run_cons.
    change (step (LStr iskey acc hi SPlain, K) 92)
      with (LStr iskey acc hi SEsc, K).
    cbn [run fold_left step str_step]. now rewrite Hu, Hx. }
  destruct (c =? 34) eqn:E1.
  { apply N.eqb_eq in E1. subst c. eexists _, None.
    split; [now apply Hesc|]. split; [reflexivity|congruence]. }
  destruct (c =? 92) eqn:E2.
  { apply N.eqb_eq in E2. subst c. eexists _, None.
    split; [now apply Hesc|]. split; [reflexivity|congruence]. }
  destruct (c =? 10) eqn:E3.
  { apply N.eqb_eq in E3. subst c. eexists _, None.
    split; [now apply Hesc|]. split; [reflexivity|congruence]. }
  destruct (c =? 13) eqn:E4.
  { apply N.eqb_eq in E4. subst c. eexists _, None.
    split; [now apply Hesc|]. split; [reflexivity|congruence]. }
  destruct (c =? 9) eqn:E5.
  { apply N.eqb_eq in E5. subst c. eexists _, None.
    split; [now apply Hesc|]. split; [reflexivity|congruence]. }
  destruct (c =? 12) eqn:E6.
  { apply N.eqb_eq in E6. subst c. eexists _, None.
    split; [now apply Hesc|]. split; [reflexivity|congruence]. }
  destruct (c =? 8) eqn:E7.
  { apply N.eqb_eq in E7. subst c. eexists _, None.
    split; [now apply Hesc|]. split; [reflexivity|congruence]. }
  destruct ((32 <=? c) && (c <=? 126)) eqn:E8.
  { apply andb_true_iff in E8 as [Hge Hle]. apply N.leb_le in Hge.
    eexists _, None. split; [|split; [reflexivity|congruence]].
    cbn [run fold_left step str_step]. rewrite E1, E2.
    replace (c <? 32) with false by (symmetry; apply N.ltb_ge; exact Hge).
    reflexivity. }
  destruct (c <? 0x10000) eqn:E9.
  { apply N.ltb_lt in E9. rewrite (run_esc_u _ _ _ _ _ E9). unfold uni_done.
    destruct hi as [h|].
    - rewrite Hlow by discriminate. unfold emit.
      destruct (is_high c) eqn:Eh.
      + eexists _, (Some c). split; [reflexivity|].
        split; [cbn [flush]; now rewrite <- app_assoc|auto].
      + eexists _, None. split; [reflexivity|].
        split; [cbn [flush]; reflexivity|congruence].
    - unfold emit. destruct (is_high c) eqn:Eh.
      + eexists _, (Some c). split; [reflexivity|]. split; [reflexivity|auto].
      + eexists _, None. split; [reflexivity|]. split; [reflexivity|congruence]. }
  apply N.ltb_ge in E9. cbv zeta.
  set (v := c - 0x10000).
  assert (Hv : v < 0x100000) by (unfold v; lia).
  assert (HH : is_high (0xD800 + v / 1024) = true).
  { unfold is_high. apply andb_true_iff. split; apply N.leb_le; arith. }
  assert (HL : is_low (0xDC00 + v mod 1024) = true).
  { unfold is_low. apply andb_true_iff. split; apply N.leb_le; arith. }
  assert (HnL : is_low (0xD800 + v / 1024) = false).
  { unfold is_low. apply andb_false_iff. left. apply N.leb_gt. arith. }
  rewrite DecoderShape.run_app.
  rewrite run_esc_u by arith.
  assert (H1 : uni_done iskey acc hi (0xD800 + v / 1024) K
               = (LStr iskey (flush acc hi) (Some (0xD800 + v / 1024)) SPlain, K)).
  { unfold uni_done, emit. rewrite HnL, HH. destruct hi; reflexivity. }
  rewrite H1, run_esc_u by arith.
  unfold uni_done. rewrite HL.
  eexists _, None. split; [reflexivity|]. split; [|congruence].
  cbn [flush]. do 2 f_equal. unfold join_surrogates, v. arith.
Qed.

(** A string: the encoder's text between quotes is read back as the
    string. *)
Lemma run_string_body (iskey : bool) (K : list frame) (s : text) :
  valid_text s = true -> pairs_free s = true ->
  forall (acc : text) (hi : option N),
    (hi <> None -> match s with c :: _ => is_low c = false | [] => True end) ->
    (hi <> None -> match hi with Some h => is_high h = true | None => True end) ->
    run (LStr iskey acc hi SPlain, K) (flat_map encode_char s ++ [34])
    = str_done iskey (flush acc hi ++ s) K.
Proof.
  induction s as [|c s IH]; intros Hv Hp acc hi Hlow Hhigh.
  - cbn [flat_map app run fold_left step str_step].
    now rewrite app_nil_r.
  - cbn [valid_text forallb] in Hv. apply andb_true_iff in Hv as [Hc Hv].
    apply N.ltb_lt in Hc.
    cbn [pairs_free] in Hp. apply andb_true_iff in Hp as [Hp1 Hp].
    destruct (run_encode_char iskey K c acc hi Hc Hlow)
      as (acc' & hi' & Hrun & Hflush & Hhi').
    cbn [flat_map]. rewrite <- app_assoc, DecoderShape.run_app, Hrun.
    rewrite (IH Hv Hp acc' hi').
    + rewrite Hflush, <- app_assoc. reflexivity.
    + intros Hne. destruct s as [|c2 s]; [exact I|].
      rewrite (Hhi' Hne) in Hp1. cbn [andb] in Hp1.
      now apply negb_true_iff in Hp1.
    + intros Hne. destruct hi' as [h'|]; [|exact I].
      assert (Hf := Hflush). cbn [flush] in Hf.
      apply (f_equal (@rev N)) in Hf. rewrite !rev_app_distr in Hf.
      cbn [rev app] in Hf. injection Hf as -> _. now apply Hhi'.
Qed.

Lemma run_string (iskey : bool) (K : list frame) (s : text) (lx : lex) :
  valid_text s = true -> pairs_free s = true ->
  step (lx, K) 34 = (LStr iskey [] None SPlain, K) ->
  run (lx, K) (encode_str s) = str_done iskey s K.
Proof.
  intros Hv Hp Hstep. unfold encode_str.
  rewrite DecoderShape.run_cons, Hstep.
  rewrite (run_string_body iskey K s Hv Hp [] None); [reflexivity| |];
    intros H; congruence.
Qed.


(** ** Values *)

Lemma digits_fuel_digits (fuel : nat) (n : N) :
  Forall (fun c => 48 <= c /\ c <= 57) (digits_fuel fuel n).
Proof.
  revert n. induction fuel as [|fuel IH]; intros n; cbn [digits_fuel].
  - constructor.
  - apply Forall_app. split.
    + destruct (n <? 10); [constructor|apply IH].
    + constructor; [arith|constructor].
Qed.

Lemma str_of_N_head (n : N) :
  exists c rest, str_of_N n = c :: rest /\ 48 <= c /\ c <= 57.
Proof.
  unfold str_of_N.
  pose proof (digits_fuel_digits (S (N.size_nat n)) n) as H.
  destruct (digits_fuel (S (N.size_nat n)) n) as [|c rest] eqn:E.
  - cbn [digits_fuel] in E. now apply app_eq_nil in E as [_ E].
  - inversion H; subst. now exists c, rest.
Qed.

Section Values.

Variable float_repr : text -> text.

(** The first character of the text of a value starts a value. *)
Lemma dumps_head (v : json) :
  no_float v = true ->
  exists c rest, dumps float_repr v = c :: rest
                 /\ is_ws c = false /\ (c =? 93) = false.
Proof.
  destruct v as [|[]|z|lit|s|l|d]; intros Hf; try discriminate;
    try (eexists _, _; split; [reflexivity|split; reflexivity]).
  cbn [dumps]. unfold str_of_Z. destruct z as [|p|p].
  - eexists _, _; split; [reflexivity|split; reflexivity].
  - destruct (str_of_N_head (Z.to_N (Z.pos p))) as (c & rest & -> & H1 & H2).
    exists c, rest. split; [reflexivity|].
    unfold is_ws. split; [|apply N.eqb_neq; lia].
    repeat (apply orb_false_iff; split); apply N.eqb_neq; lia.
  - eexists _, _; split; [reflexivity|split; reflexivity].
Qed.

Lemma step_first_item (v : json) (K : list frame) (rest : text) :
  no_float v = true ->
  run (LArrFirst, K) (dumps float_repr v ++ rest)
  = run (LValue, K) (dumps float_repr v ++ rest).
Proof.
  intros Hf. destruct (dumps_head v Hf) as (c & r & -> & H1 & H2).
  cbn [app]. rewrite !DecoderShape.run_cons. cbn [step].
  now rewrite H1, H2.
Qed.

(** [v] is read back from its text in every context. *)
Definition reads_back (v : json) : Prop :=
  forall K, delivers (run (LValue, K) (dumps float_repr v)) v K.

Lemma run_items (l : list json) :
  l <> [] ->
  Forall reads_back l -> Forall (fun x => no_float x = true) l ->
  forall (acc : list json) (K : list frame) (lx : lex),
    lx = LValue \/ lx = LArrFirst ->
    run (lx, FArr acc :: K) (dumps_items float_repr l ++ [93])
    = (LAfter (JArr (acc ++ l)), K).
Proof.
  induction l as [|x l IH]; intros Hne Hall Hnf acc K lx Hlx; [congruence|].
  inversion Hall as [|? ? Hx Hl]; subst.
  inversion Hnf as [|? ? Hfx Hfl]; subst.
  assert (Hstart : forall rest,
             run (lx, FArr acc :: K) (dumps float_repr x ++ rest)
             = run (run (LValue, FArr acc :: K) (dumps float_repr x)) rest).
  { intros rest. destruct Hlx as [-> | ->].
    - apply DecoderShape.run_app.
    - rewrite (step_first_item _ _ _ Hfx). apply DecoderShape.run_app. }
  destruct (Hx (FArr acc :: K)) as [Hstep _].
  destruct l as [|y l].
  - cbn [dumps_items]. rewrite Hstart. cbn [run fold_left].
    rewrite Hstep by reflexivity. reflexivity.
  - change (dumps_items float_repr (x :: y :: l))
      with (dumps float_repr x ++ [44; 32] ++ dumps_items float_repr (y :: l)).
    rewrite <- !app_assoc, Hstart. cbn [app].
    rewrite !DecoderShape.run_cons, Hstep by reflexivity.
    change (step (after_value x (FArr acc :: K) 44) 32)
      with (LValue, FArr (acc ++ [x]) :: K).
    rewrite (IH ltac:(discriminate) Hl Hfl (acc ++ [x]) K LValue) by now left.
    now rewrite <- app_assoc.
Qed.

Lemma run_members (d : pydict) :
  d <> [] ->
  Forall (fun kv => reads_back (snd kv)) d ->
  Forall (fun kv => valid_text (fst kv) = true /\ pairs_free (fst kv) = true) d ->
  forall (acc : pydict) (K : list frame) (lx : lex),
    lx = LObjFirst \/ lx = LObjKey ->
    run (lx, FObjK acc :: K) (dumps_members float_repr d ++ [RBRACE])
    = (LAfter (JObj (dict_of_pairs (acc ++ d))), K).
Proof.
  induction d as [|[k x] d IH]; intros Hne Hall Hkeys acc K lx Hlx;
    [congruence|].
  inversion Hall as [|? ? Hx Hd]; subst. cbn [snd] in Hx.
  inversion Hkeys as [|? ? [Hk1 Hk2] Hkd]; subst. cbn [fst] in Hk1, Hk2.
  assert (Hkey : forall rest,
             run (lx, FObjK acc :: K)
                 (encode_str k ++ [58; 32] ++ dumps float_repr x ++ rest)
             = run (run (LValue, FObjV acc k :: K) (dumps float_repr x)) rest).
  { intros rest. rewrite DecoderShape.run_app.
    rewrite (run_string true (FObjK acc :: K) k lx Hk1 Hk2)
      by (destruct Hlx as [-> | ->]; reflexivity).
    cbn [app str_done]. rewrite !DecoderShape.run_cons.
    change (step (step (LColon k, FObjK acc :: K) 58) 32)
      with (LValue, FObjV acc k :: K).
    apply DecoderShape.run_app. }
  destruct (Hx (FObjV acc k :: K)) as [Hstep _].
  destruct d as [|y d].
  - change (dumps_members float_repr [(k, x)])
      with (encode_str k ++ [58; 32] ++ dumps float_repr x).
    rewrite <- !app_assoc, Hkey. cbn [run fold_left].
    rewrite Hstep by reflexivity. reflexivity.
  - change (dumps_members float_repr ((k, x) :: y :: d))
      with (encode_str k ++ [58; 32] ++ dumps float_repr x
            ++ [44; 32] ++ dumps_members float_repr (y :: d)).
    rewrite <- !app_assoc, Hkey. cbn [app].
    rewrite !DecoderShape.run_cons, Hstep by reflexivity.
    change (step (after_value x (FObjV acc k :: K) 44) 32)
      with (LObjKey, FObjK (acc ++ [(k, x)]) :: K).
    rewrite (IH ltac:(discriminate) Hd Hkd (acc ++ [(k, x)]) K LObjKey)
      by now right.
    now rewrite <- app_assoc.
Qed.

Lemma dict_get_app_none (k : text) (a b : pydict) :
  dict_get k a = None -> dict_get k (a ++ b) = dict_get k b.
Proof.
  induction a as [|[k0 v0] a IH]; cbn [app dict_get]; [reflexivity|].
  destruct (text_eqb k k0); [discriminate|exact IH].
Qed.


(** Pairs with distinct keys make the dictionary that lists them. *)
Lemma fold_dict_set_distinct (d acc : pydict) :
  distinct_keys d = true ->
  (forall k v, In (k, v) d -> dict_get k acc = None) ->
  fold_left (fun a kv => dict_set (fst kv) (snd kv) a) d acc = acc ++ d.
Proof.
  revert acc. induction d as [|[k v] d IH]; intros acc Hd Hfresh.
  - now rewrite app_nil_r.
  - cbn [fold_left fst snd]. cbn [distinct_keys] in Hd.
    destruct (dict_get k d) eqn:Ek; [discriminate|].
    rewrite dict_set_fresh by (apply (Hfresh k v); now left).
    rewrite IH; [now rewrite <- app_assoc|exact Hd|].
    intros k' v' Hin.
    rewrite dict_get_app_none by (apply (Hfresh k' v'); now right).
    cbn [dict_get]. destruct (text_eqb k' k) eqn:E; [|reflexivity].
    apply text_eqb_eq in E. subst k'.
    clear - Ek Hin. induction d as [|[k0 v0] d IHd]; [destruct Hin|].
    cbn [dict_get] in Ek. destruct (text_eqb k k0) eqn:E0; [discriminate|].
    destruct Hin as [Hin | Hin]; [|now apply IHd].
    injection Hin as -> _. now rewrite text_eqb_refl in E0.
Qed.

Lemma dict_of_pairs_distinct (d : pydict) :
  distinct_keys d = true -> dict_of_pairs d = d.
Proof.
  intros Hd. unfold dict_of_pairs.
  now rewrite fold_dict_set_distinct.
Qed.

Lemma json_all_here (p : json -> bool) (v : json) :
  json_all p v = true -> p v = true.
Proof. destruct v; cbn [json_all]; intros H; apply andb_true_iff in H; tauto. Qed.

Lemma json_all_items (p : json -> bool) (l : list json) :
  json_all p (JArr l) = true -> Forall (fun x => json_all p x = true) l.
Proof.
  cbn [json_all]. intros H. apply andb_true_iff in H as [_ H].
  apply Forall_forall. now apply forallb_forall.
Qed.

Lemma json_all_members (p : json -> bool) (d : pydict) :
  json_all p (JObj d) = true ->
  Forall (fun kv => json_all p (snd kv) = true) d.
Proof.
  cbn [json_all]. intros H. apply andb_true_iff in H as [_ H].
  apply Forall_forall. intros kv Hin.
  now apply (proj1 (forallb_forall _ _) H kv).
Qed.

(** Every Python object without floats and without surrogate pairs is read
    back from its text. *)
Lemma run_value (v : json) :
  python_value v = true -> float_free v = true -> unpaired v = true ->
  reads_back v.
Proof.
  induction v as [|b|z|lit|s|l IH|d IH] using json_induction;
    intros Hv Hf Hu K.
  - apply delivers_after.
  - destruct b; apply delivers_after.
  - apply run_int.
  - discriminate.
  - apply json_all_here in Hv, Hu. cbn [node_valid node_unpaired] in Hv, Hu.
    cbn [dumps].
    rewrite (run_string false K s LValue Hv Hu eq_refl).
    apply delivers_after.
  - cbn [dumps]. rewrite DecoderShape.run_cons.
    change (step (LValue, K) 91) with (LArrFirst, FArr [] :: K).
    destruct l as [|x l]; [apply delivers_after|].
    fold (dumps_items float_repr (x :: l)).
    rewrite (run_items (x :: l)); [apply delivers_after|discriminate| |
                                   |now right].
    + apply json_all_items in Hv, Hf, Hu.
      rewrite Forall_forall in *. intros y Hy. apply IH; auto.
    + apply json_all_items in Hf. rewrite Forall_forall in *.
      intros y Hy. now apply json_all_here, Hf.
  - cbn [dumps]. rewrite DecoderShape.run_cons.
    change (step (LValue, K) LBRACE) with (LObjFirst, FObjK [] :: K).
    destruct d as [|kv d]; [apply delivers_after|].
    fold (dumps_members float_repr (kv :: d)).
    pose proof (json_all_here _ _ Hv) as Hnode.
    pose proof (json_all_here _ _ Hu) as Hnode'.
    cbn [node_valid node_unpaired] in Hnode, Hnode'.
    apply andb_true_iff in Hnode as [Hdist Hkeys].
    rewrite (run_members (kv :: d)); [|discriminate| | |now left].
    + cbn [app]. rewrite (dict_of_pairs_distinct _ Hdist).
      apply delivers_after.
    + apply json_all_members in Hv, Hf, Hu.
      rewrite Forall_forall in *. intros y Hy. apply IH; auto.
    + rewrite Forall_forall. intros y Hy. split.
      * now apply (proj1 (forallb_forall _ _) Hkeys y).
      * now apply (proj1 (forallb_forall _ _) Hnode' y).
Qed.


End Values.

End RoundTrip.

(* ================================================================== *)
(** * What [json.loads] returns is a Python object *)

Module DecoderValid.
Import Decoder.






















End DecoderValid.


(* ================================================================== *)
(** * The extractor on the text of its own result *)

Lemma subseq_empty (s : text) : subseq [] s.
Proof. induction s; constructor; auto. Qed.

Lemma longest_close_subseq (s m : text) :
  longest_close s = Some m -> subseq m s.
Proof.
  revert m. induction s as [|c s IH]; intros m; cbn [longest_close];
    [discriminate|].
  destruct (longest_close s) as [m'|].
  - intros H. injection H as <-. constructor. now apply IH.
  - destruct (c =? RBRACE); [|discriminate].
    intros H. injection H as <-. constructor. apply subseq_empty.
Qed.

(** The span found is a part of the text and starts with the brace. *)
Lemma re_search_braces_found (s m : text) :
  re_search_braces s = Some m ->
  subseq m s /\ exists m', m = LBRACE :: m'.
Proof.
  revert m. induction s as [|c s IH]; intros m; cbn [re_search_braces];
    [discriminate|].
  destruct (c =? LBRACE) eqn:E.
  - destruct (longest_close s) as [m'|] eqn:El.
    + intros H. injection H as <-. apply N.eqb_eq in E. subst c. split.
      * constructor. now apply longest_close_subseq.
      * now exists m'.
    + intros H. destruct (IH _ H) as [Hs He]. split; [now constructor|exact He].
  - intros H. destruct (IH _ H) as [Hs He]. split; [now constructor|exact He].
Qed.


(** The extractor on one object between texts without braces. *)
Lemma extractor_on_wrapped_object
    (pre body post : text) (v : json) (w : world) :
  brace_free pre = true -> brace_free post = true ->
  contains FENCE (LBRACE :: body ++ [RBRACE]) = false ->
  loads (LBRACE :: body ++ [RBRACE]) = Ret v ->
  fst (clean_and_parse_json
         (pre ++ (LBRACE :: body ++ [RBRACE]) ++ post) w) = Ret v.
Proof.
  intros Hpre Hpost Hfence Hloads.
  rewrite clean_and_parse_json_run. cbn [fst]. f_equal.
  unfold extracted, extract.
  rewrite normal_form, (search_clean _ _ _ Hpre Hpost).
  rewrite (unfence_object_body _ Hfence), Hloads. reflexivity.
Qed.

(** C1 as stated fails: three backticks inside a string of the object are
    removed with the fences, so another object is returned. *)
Lemma extractor_alters_backticks_in_strings :
  ~ (forall (pre body post : text) (v : json) (w : world),
       brace_free pre = true -> brace_free post = true ->
       loads (LBRACE :: body ++ [RBRACE]) = Ret v ->
       fst (clean_and_parse_json
              (pre ++ (LBRACE :: body ++ [RBRACE]) ++ post) w) = Ret v).
Proof.
  intros H.
  specialize (H [] (pyq "'a': '```'") []
                (JObj [(py "a", JStr (py "```"))]) world0
                eq_refl eq_refl eq_refl).
  vm_compute in H. discriminate.
Qed.

(** C1 (amended): for every raw text made of one well-formed JSON object
    whose text has no run of three backticks, with fence markers or prose
    without braces before and after it, the extractor returns the object that
    [json.loads] reads from that text; on the scenario of the
    specification, [FENCED_SCENARIO], it returns the mapping of [a] to 1. *)
Theorem extractor_returns_the_object :
  (forall (pre body post : text) (v : json) (w : world),
      brace_free pre = true -> brace_free post = true ->
      contains FENCE (LBRACE :: body ++ [RBRACE]) = false ->
      loads (LBRACE :: body ++ [RBRACE]) = Ret v ->
      fst (clean_and_parse_json
             (pre ++ (LBRACE :: body ++ [RBRACE]) ++ post) w) = Ret v)
  /\ fst (clean_and_parse_json FENCED_SCENARIO world0)
     = Ret (JObj [(py "a", JInt 1)]).
Proof.
  split; [exact extractor_on_wrapped_object|vm_compute; reflexivity].
Qed.

Lemma extractor_returns_the_object_witness :
  fst (clean_and_parse_json
         ((py "Result: ```json" ++ [10])
          ++ (LBRACE :: pyq "'a': {'b': [1, 2]}" ++ [RBRACE])
          ++ ([10] ++ py "``` Thanks")) world0)
  = Ret (JObj [(py "a", JObj [(py "b", JArr [JInt 1; JInt 2])])]).
Proof.
  apply (proj1 extractor_returns_the_object); vm_compute; reflexivity.
Defined.

(** A surrogate pair written as two escapes is read back as one code
    point: a string that holds the two surrogates does not survive the
    round trip. *)
Lemma surrogate_pair_is_joined :
  let v := JObj [(py "a", JStr [0xD83D; 0xDE00])] in
  loads (LBRACE :: pyq "'a': '" ++ [0xD83D] ++ pyq "\ude00'" ++ [RBRACE]) = Ret v
  /\ loads (dumps literal_repr v) = Ret (JObj [(py "a", JStr [0x1F600])]).
Proof. split; vm_compute; reflexivity. Qed.




(* ================================================================== *)
(** * The cleaning and the span, in general *)

Lemma longest_close_absent (s : text) :
  longest_close s = None -> existsb (N.eqb RBRACE) s = false.
Proof.
  induction s as [|c s IH]; cbn [longest_close existsb]; [reflexivity|].
  destruct (longest_close s); [discriminate|].
  rewrite (N.eqb_sym RBRACE c). destruct (c =? RBRACE); [discriminate|].
  intros _. now apply IH.
Qed.

Lemma longest_close_split (s m : text) :
  longest_close s = Some m ->
  exists b c, m = b ++ [RBRACE] /\ s = m ++ c
              /\ existsb (N.eqb RBRACE) c = false.
Proof.
  revert m. induction s as [|x s IH]; intros m; cbn [longest_close];
    [discriminate|].
  destruct (longest_close s) as [m'|] eqn:E.
  - intros H. injection H as <-.
    destruct (IH _ eq_refl) as (b & c & -> & Hs & Hc).
    exists (x :: b), c. repeat split; [now rewrite Hs at 1|exact Hc].
  - destruct (x =? RBRACE) eqn:Ex; [|discriminate].
    intros H. injection H as <-. apply N.eqb_eq in Ex. subst x.
    exists [], s. repeat split. now apply longest_close_absent.
Qed.

Lemma longest_close_greedy (b c : text) :
  existsb (N.eqb RBRACE) c = false ->
  longest_close (b ++ RBRACE :: c) = Some (b ++ [RBRACE]).
Proof.
  intros Hc. induction b as [|x b IH]; cbn [app longest_close].
  - now rewrite (longest_close_none _ Hc), N.eqb_refl.
  - now rewrite IH.
Qed.

Lemma re_search_braces_closes (s m : text) :
  re_search_braces s = Some m -> existsb (N.eqb RBRACE) s = true.
Proof.
  intros H. destruct (existsb (N.eqb RBRACE) s) eqn:E; [reflexivity|].
  rewrite re_search_braces_none in H; [discriminate|].
  clear H. induction s as [|c s IH]; cbn [has_span existsb] in *;
    [reflexivity|].
  apply orb_false_iff in E as [_ E]. rewrite E, andb_false_r. now apply IH.
Qed.

Lemma re_search_braces_split (s m : text) :
  re_search_braces s = Some m ->
  exists a b c,
    s = a ++ m ++ c /\ m = LBRACE :: b ++ [RBRACE]
    /\ existsb (N.eqb LBRACE) a = false
    /\ existsb (N.eqb RBRACE) c = false.
Proof.
  revert m. induction s as [|x s IH]; intros m; cbn [re_search_braces];
    [discriminate|].
  destruct (x =? LBRACE) eqn:Ex.
  - destruct (longest_close s) as [m'|] eqn:El.
    + intros H. injection H as <-. apply N.eqb_eq in Ex. subst x.
      destruct (longest_close_split _ _ El) as (b & c & -> & Hs & Hc).
      exists [], b, c. repeat split; [now rewrite Hs at 1|exact Hc].
    + intros H. apply re_search_braces_closes in H.
      now rewrite (longest_close_absent _ El) in H.
  - intros H. destruct (IH _ H) as (a & b & c & -> & -> & Ha & Hc).
    exists (x :: a), b, c. repeat split; [|exact Hc].
    cbn [existsb]. now rewrite N.eqb_sym, Ex.
Qed.

Lemma re_search_braces_greedy (a b c : text) :
  existsb (N.eqb LBRACE) a = false ->
  existsb (N.eqb RBRACE) c = false ->
  re_search_braces (a ++ (LBRACE :: b ++ [RBRACE]) ++ c)
  = Some (LBRACE :: b ++ [RBRACE]).
Proof.
  intros Ha Hc. induction a as [|x a IH]; cbn [app re_search_braces].
  - rewrite N.eqb_refl, <- app_assoc. cbn [app].
    now rewrite (longest_close_greedy _ _ Hc).
  - cbn [existsb] in Ha. apply orb_false_iff in Ha as [Hx Ha].
    rewrite N.eqb_sym, Hx. now apply IH.
Qed.

(** X3: the text handed to [json.loads] is the part of the cleaned text
    from its first opening brace to its last closing brace, and the search
    finds nothing else. *)
Theorem span_runs_from_first_open_to_last_close (raw m : text) :
  re_search_braces (clean raw) = Some m
  <-> exists a b c,
        clean raw = a ++ m ++ c /\ m = LBRACE :: b ++ [RBRACE]
        /\ existsb (N.eqb LBRACE) a = false
        /\ existsb (N.eqb RBRACE) c = false.
Proof.
  split; [apply re_search_braces_split|].
  intros (a & b & c & -> & -> & Ha & Hc).
  now apply re_search_braces_greedy.
Qed.

Lemma longest_close_present (s : text) :
  existsb (N.eqb RBRACE) s = true -> exists m, longest_close s = Some m.
Proof.
  intros H. destruct (longest_close s) as [m|] eqn:E; [now exists m|].
  now rewrite (longest_close_absent _ E) in H.
Qed.

Lemma re_search_braces_some (s : text) :
  has_span s = true -> exists m, re_search_braces s = Some m.
Proof.
  induction s as [|c s IH]; cbn [has_span re_search_braces]; [discriminate|].
  intros H. destruct (c =? LBRACE) eqn:Ec.
  - destruct (longest_close s) as [m|] eqn:El; [now eexists|].
    rewrite (longest_close_absent _ El) in H. cbn [andb orb] in H.
    now apply IH.
  - cbn [andb orb] in H. now apply IH.
Qed.

(** The cleaning removes no brace and keeps the order of the characters. *)
Lemma has_span_clean (raw : text) : has_span (clean raw) = has_span raw.
Proof.
  destruct (has_span raw) eqn:E.
  - apply has_span_iff in E as (a & b & c & ->). cbn [app].
    rewrite clean_shape. apply has_span_iff.
    now exists (lstrip (unfence a)), (unfence b), (rstrip (unfence c)).
  - destruct (has_span (clean raw)) eqn:E'; [|reflexivity].
    now rewrite (subseq_has_span _ _ (clean_subseq raw) E') in E.
Qed.

(** X2: the extractor ends with "No JSON object found" exactly when the
    raw text has no opening brace that is followed by a closing brace. *)
Theorem no_object_found_iff_no_braces (raw : text) :
  extract raw = NoJsonFound (clean raw) <-> has_span raw = false.
Proof.
  unfold extract. split.
  - intros H. destruct (has_span raw) eqn:E; [|reflexivity].
    rewrite <- has_span_clean in E.
    destruct (re_search_braces_some _ E) as [m Hm]. rewrite Hm in H.
    destruct (loads m); discriminate.
  - intros H. now rewrite (search_clean_none _ H).
Qed.

Lemma contains_app_r (p a b : text) :
  contains p (a ++ b) = false -> contains p b = false.
Proof.
  induction a as [|c a IH]; [trivial|].
  cbn [app]. intros H. apply contains_tail in H. now apply IH.
Qed.

Lemma lstrip_suffix (s : text) : exists a, s = a ++ lstrip s.
Proof.
  induction s as [|c s [a IH]]; [now exists []|]. cbn [lstrip].
  destruct (isspace c); [|now exists []].
  exists (c :: a). cbn [app]. now rewrite <- IH.
Qed.

Lemma rstrip_prefix (s : text) : exists b, s = rstrip s ++ b.
Proof.
  unfold rstrip. destruct (lstrip_suffix (rev s)) as [a Ha].
  exists (rev a). rewrite <- rev_app_distr, <- Ha. now rewrite rev_involutive.
Qed.

Lemma contains_strip (p s : text) :
  contains p s = false -> contains p (strip s) = false.
Proof.
  intros H. unfold strip.
  destruct (lstrip_suffix s) as [a Ha]. rewrite Ha in H.
  apply contains_app_r in H.
  destruct (rstrip_prefix (lstrip s)) as [b Hb]. rewrite Hb in H.
  now apply contains_app_l in H.
Qed.

(** What [replace('```', '')] leaves starts with a backtick only where the
    text did. *)
Lemma replace_fence_head (s : text) :
  starts_with [BACKTICK] (replace FENCE [] s) = true ->
  starts_with [BACKTICK] s = true.
Proof.
  rewrite (replace_unfold _ FENCE_not_empty).
  destruct (starts_with FENCE s) eqn:E.
  - intros _. now apply (starts_with_prefix [BACKTICK] [BACKTICK; BACKTICK]).
  - destruct s as [|c s]; [discriminate|]. trivial.
Qed.

Lemma replace_fence_head2 (s : text) :
  starts_with [BACKTICK; BACKTICK] (replace FENCE [] s) = true ->
  starts_with [BACKTICK; BACKTICK] s = true.
Proof.
  rewrite (replace_unfold _ FENCE_not_empty).
  destruct (starts_with FENCE s) eqn:E.
  - intros _. now apply (starts_with_prefix [BACKTICK; BACKTICK] [BACKTICK]).
  - destruct s as [|c s]; [discriminate|].
    change [BACKTICK; BACKTICK] with (BACKTICK :: [BACKTICK]).
    cbn [starts_with]. fold (starts_with [BACKTICK] (replace FENCE [] s)).
    fold (starts_with [BACKTICK] s).
    intros H. apply andb_true_iff in H as [-> H].
    now rewrite (replace_fence_head _ H).
Qed.

(** A backtick that stays was not followed by two others: what is left has
    no run of three backticks. *)
Lemma replace_leaves_no_fence (s : text) :
  contains FENCE (replace FENCE [] s) = false.
Proof.
  remember (length s) as n eqn:Hn. revert s Hn.
  induction n as [n IH] using lt_wf_ind. intros s Hn.
  rewrite (replace_unfold _ FENCE_not_empty).
  destruct (starts_with FENCE s) eqn:E.
  - cbn [app]. apply (IH (length (skipn (length FENCE) s))); [|reflexivity].
    rewrite length_skipn. apply starts_with_length in E.
    change (length FENCE) with 3%nat in *. lia.
  - destruct s as [|c s]; [reflexivity|].
    cbn [contains]. rewrite (IH (length s)); [|subst n; simpl; lia|reflexivity].
    rewrite orb_false_r.
    destruct (starts_with FENCE (c :: replace FENCE [] s)) eqn:E'; [|reflexivity].
    change FENCE with (BACKTICK :: [BACKTICK; BACKTICK]) in E, E'.
    cbn [starts_with] in E'. apply andb_true_iff in E' as [Hc E'].
    fold (starts_with [BACKTICK; BACKTICK] (replace FENCE [] s)) in E'.
    apply replace_fence_head2 in E'.
    cbn [starts_with] in E. fold (starts_with [BACKTICK; BACKTICK] s) in E.
    rewrite Hc, E' in E. discriminate.
Qed.

Lemma clean_no_fence (raw : text) : contains FENCE (clean raw) = false.
Proof. unfold clean. apply contains_strip, replace_leaves_no_fence. Qed.

(** X4: after the cleaning no run of three backticks is left, whatever the
    raw text: neither in the cleaned text nor in the span handed to
    [json.loads]. *)
Theorem cleaning_leaves_no_fence (raw : text) :
  contains FENCE (clean raw) = false
  /\ forall json_content,
       re_search_braces (clean raw) = Some json_content ->
       contains FENCE json_content = false.
Proof.
  split; [apply clean_no_fence|].
  intros m E. pose proof (clean_no_fence raw) as H.
  destruct (re_search_braces_split _ _ E) as (a & b & c & Hs & _).
  rewrite Hs in H. now apply contains_app_r, contains_app_l in H.
Qed.

Lemma lstrip_idem (s : text) : lstrip (lstrip s) = lstrip s.
Proof.
  induction s as [|c s IH]; [reflexivity|]. cbn [lstrip].
  destruct (isspace c) eqn:E; [exact IH|]. cbn [lstrip]. now rewrite E.
Qed.

Lemma lstrip_head (s : text) :
  match lstrip s with
  | [] => True
  | c :: _ => isspace c = false
  end.
Proof.
  induction s as [|c s IH]; [exact I|]. cbn [lstrip].
  destruct (isspace c) eqn:E; [exact IH|exact E].
Qed.

Lemma rstrip_idem (s : text) : rstrip (rstrip s) = rstrip s.
Proof. unfold rstrip. now rewrite rev_involutive, lstrip_idem. Qed.

Lemma rstrip_cons_nonspace (x : N) (u : text) :
  isspace x = false -> rstrip (x :: u) = x :: rstrip u.
Proof. intros H. exact (rstrip_app_nonspace [] x u H). Qed.

Lemma strip_idem (s : text) : strip (strip s) = strip s.
Proof.
  unfold strip. pose proof (lstrip_head s) as H.
  destruct (lstrip s) as [|x u]; [reflexivity|].
  rewrite (rstrip_cons_nonspace x u H). cbn [lstrip]. rewrite H.
  rewrite (rstrip_cons_nonspace x _ H). now rewrite rstrip_idem.
Qed.

Lemma clean_idem (raw : text) : clean (clean raw) = clean raw.
Proof.
  unfold clean at 1. fold (unfence (clean raw)).
  rewrite (unfence_absent _ (clean_no_fence raw)).
  unfold clean. apply strip_idem.
Qed.

(** X5: cleaning a cleaned text changes nothing, so the extractor gives on
    the cleaned text (the one it logs when it finds no object) the value and
    the reports it gives on the raw text. *)
Theorem extractor_is_stable_on_cleaned_text (raw : text) (w : world) :
  clean (clean raw) = clean raw
  /\ clean_and_parse_json (clean raw) w = clean_and_parse_json raw w.
Proof.
  split; [apply clean_idem|].
  rewrite !clean_and_parse_json_run. unfold extracted, extract.
  now rewrite clean_idem.
Qed.


(* ================================================================== *)
(** * Every run of [main] *)

Lemma written_app (a b : list event) :
  written (a ++ b) = written a ++ written b.
Proof.
  induction a as [|ev a IH]; [reflexivity|].
  destruct ev; cbn [app written]; now rewrite ?IH.
Qed.

Lemma written_reported (x : extraction) : written (reported x) = [].
Proof. destruct x; reflexivity. Qed.

Lemma calls_app (a b : list event) : calls (a ++ b) = calls a ++ calls b.
Proof.
  induction a as [|ev a IH]; [reflexivity|].
  destruct ev; cbn [app calls]; now rewrite ?IH.
Qed.

Lemma calls_reported (x : extraction) : calls (reported x) = [].
Proof. destruct x; reflexivity. Qed.

(** A trace as [main] builds it: events, and the reports of the extractor,
    added at the end one after the other.  The observations are computed
    on this description. *)
Module TraceShape.

Inductive shape :=
| Start
| Then (s : shape) (ev : event)
| Reports (s : shape) (x : extraction).

Fixpoint events (s : shape) : list event :=
  match s with
  | Start => []
  | Then s' ev => events s' ++ [ev]
  | Reports s' x => events s' ++ reported x
  end.

Fixpoint written_of (s : shape) : list json :=
  match s with
  | Start => []
  | Then s' (Dump _ doc) => written_of s' ++ [doc]
  | Then s' _ => written_of s'
  | Reports s' _ => written_of s'
  end.

Fixpoint calls_of (s : shape) : list call :=
  match s with
  | Start => []
  | Then s' (Input prompt) => calls_of s' ++ [Ask prompt]
  | Then s' (ClientRun a _) => calls_of s' ++ [Run a]
  | Then s' _ => calls_of s'
  | Reports s' _ => calls_of s'
  end.

Lemma written_events (s : shape) : written (events s) = written_of s.
Proof.
  induction s as [|s IH ev|s IH x]; cbn [events written_of];
    rewrite ?written_app, ?IH, ?written_reported, ?app_nil_r;
    [reflexivity| |reflexivity].
  destruct ev; cbn [written]; now rewrite ?app_nil_r.
Qed.

Lemma calls_events (s : shape) : calls (events s) = calls_of s.
Proof.
  induction s as [|s IH ev|s IH x]; cbn [events calls_of];
    rewrite ?calls_app, ?IH, ?calls_reported, ?app_nil_r;
    [reflexivity| |reflexivity].
  destruct ev; cbn [calls]; now rewrite ?app_nil_r.
Qed.

Ltac shape_of t :=
  lazymatch t with
  | ?a ++ reported ?x => let s := shape_of a in constr:(Reports s x)
  | ?a ++ [?ev] => let s := shape_of a in constr:(Then s ev)
  | @nil event => constr:(Start)
  end.

End TraceShape.

(** The observations on the trace of a run. *)
Ltac measure :=
  cbn [fst snd trace combined_output co_history];
  repeat match goal with
    | |- context [written ?t] =>
        lazymatch t with
        | TraceShape.events _ => fail
        | _ => let s := TraceShape.shape_of t in
               change (written t) with (written (TraceShape.events s));
               rewrite (TraceShape.written_events s)
        end
    | |- context [calls ?t] =>
        lazymatch t with
        | TraceShape.events _ => fail
        | _ => let s := TraceShape.shape_of t in
               change (calls t) with (calls (TraceShape.events s));
               rewrite (TraceShape.calls_events s)
        end
    end;
  cbn [TraceShape.written_of TraceShape.calls_of app].

(** The same by rewriting, for a trace in any form. *)
Ltac tally :=
  cbn [fst snd trace combined_output co_history];
  repeat (progress (repeat rewrite written_app; repeat rewrite calls_app;
                    repeat rewrite written_reported;
                    repeat rewrite calls_reported;
                    cbn [written calls app])).

(** An event that is in a trace. *)
Ltac find_event :=
  cbn [trace];
  repeat first [ now left | right | apply in_or_app; right ].

(** [explore], keeping what each test found. *)
Ltac survey :=
  unfold_program;
  repeat (first
    [ rewrite clean_and_parse_json_run; unfold_program
    | match goal with
      | |- context [match client_run ?e ?a ?m with _ => _ end] =>
          destruct (client_run e a m) eqn:?; unfold_program
      | |- context [match input ?e ?p with _ => _ end] =>
          destruct (input e p) eqn:?; unfold_program
      | |- context [match rev (messages ?r) with _ => _ end] =>
          destruct (rev (messages r)) eqn:?; unfold_program
      | |- context [match content ?m with _ => _ end] =>
          destruct (content m) eqn:?; unfold_program
      | |- context [if truthy ?v then _ else _] =>
          destruct (truthy v) eqn:?; unfold_program
      | |- context [if isinstance_Exception ?e then _ else _] =>
          destruct (isinstance_Exception e) eqn:?; unfold_program
      end ]).

(** A value of the extractor that [main] accepts is a dictionary that is
    not empty. *)
Lemma truthy_extracted (raw : text) :
  truthy (extracted raw) = true -> nonempty_object (extracted raw) = true.
Proof.
  unfold extracted, extract.
  destruct (re_search_braces (clean raw)) as [span|] eqn:Es; [|discriminate].
  destruct (loads span) as [v|e] eqn:El; [|discriminate].
  destruct (re_search_braces_found _ _ Es) as [_ [m' ->]].
  destruct (loads_object _ _ El) as [d ->]. cbn [returned].
  now destruct d.
Qed.

Ltac decide_keys :=
  repeat match goal with
         | |- context [text_eqb ?a ?b] =>
             let r := eval vm_compute in (text_eqb a b) in
             change (text_eqb a b) with r
         end.

(** However the environment answers, the result of [main] satisfies
    [every_run]: every path of the program is followed. *)
Lemma main_every_run (float_repr : text -> text) (env : environment) :
  every_run (main float_repr env world0).
Proof.
  survey;
    unfold every_run, written_is_accumulator, follows_protocol,
      document_shape, raises_early;
    measure; rewrite ?dict_set_fresh by reflexivity; cbn [app map fst];
    (split; [tauto|]); (split; [unfold PROTOCOL; eexists; reflexivity|]);
    (split; [split; [unfold KEYS; eexists; reflexivity|] |]).
  all: try (unfold entry_shape; cbn [forallb fst snd]; decide_keys; cbv iota;
            repeat match goal with
              | H : truthy (extracted _) = true |- _ =>
                  apply truthy_extracted in H; rewrite H; clear H
              end; reflexivity).
  all: try exact I.
  all: split; [reflexivity|]; intros; try reflexivity; congruence.
Qed.

Lemma last_cons_default {A} (x : A) (l : list A) (d d' : A) :
  last (x :: l) d = last (x :: l) d'.
Proof.
  revert x. induction l as [|y l IH]; intros x; [reflexivity|].
  change (last (x :: y :: l) d) with (last (y :: l) d).
  change (last (x :: y :: l) d') with (last (y :: l) d'). apply IH.
Qed.

(** The file holds the last document written. *)
Lemma persisted_in_written (t : list event) (cur : option json) :
  persisted_in t cur = last (map Some (written t)) cur.
Proof.
  revert cur. induction t as [|ev t IH]; intros cur; [reflexivity|].
  destruct ev; cbn [persisted_in written]; rewrite IH; try reflexivity.
  cbn [map]. destruct (map Some (written t)) eqn:E; [reflexivity|].
  change (last (Some doc :: o :: l) cur) with (last (o :: l) cur).
  apply last_cons_default.
Qed.

(** A document in the file is the accumulator. *)
Lemma persisted_accumulator (float_repr : text -> text) (env : environment)
    (doc : json) :
  let w := snd (main float_repr env world0) in
  persisted w = Some doc -> doc = JObj (combined_output w).
Proof.
  intros w. unfold persisted. rewrite persisted_in_written.
  destruct (proj1 (main_every_run float_repr env)) as [H | [H | H]];
    fold w in H; rewrite H; cbn [map last]; congruence.
Qed.

Section Runs.

Variable float_repr : text -> text.
Variable env : environment.

(** X6: in every run the output file is written at most twice, and what
    is written is each time the accumulator as it is when [main] ends: the
    file never holds an older state of the accumulator. *)
Theorem every_write_stores_the_accumulator :
  let w := snd (main float_repr env world0) in
  written (trace w) = []
  \/ written (trace w) = [JObj (combined_output w)]
  \/ written (trace w) = [JObj (combined_output w); JObj (combined_output w)].
Proof. exact (proj1 (main_every_run float_repr env)). Qed.

(** X7: in every run the prompts and the personas come in one order, the
    URL prompt, the four personas in turn with the vendor prompt before the
    last one; none is skipped and none comes twice, the run can only stop
    early. *)
Theorem main_follows_the_protocol :
  exists rest,
    calls (trace (snd (main float_repr env world0))) ++ rest = PROTOCOL.
Proof. exact (proj1 (proj2 (main_every_run float_repr env))). Qed.

(** X8: in every run the keys of the accumulator are the first keys of
    [company_info], [pain_points], [industry_challenges],
    [selling_company], [solutions], in this order; [selling_company] holds a
    string and every other key a dictionary that is not empty. *)
Theorem document_has_the_fixed_shape :
  let d := combined_output (snd (main float_repr env world0)) in
  (exists rest, map fst d ++ rest = KEYS) /\ forallb entry_shape d = true.
Proof. exact (proj1 (proj2 (proj2 (main_every_run float_repr env)))). Qed.


(** X10: the first prompt is outside the [try] statement of [main]: when
    it raises, [main] raises the same exception before any persona runs and
    writes nothing; the guard of the script catches it when it is an
    instance of [Exception], and reports it on the console and in the
    log. *)
Theorem failure_of_the_first_prompt (e : exn) :
  let w := extend world0
             [Log DEBUG (py "Starting main function");
              Print (py "Welcome to the IT Solutions Sales Team!");
              Input URL_PROMPT] in
  input env URL_PROMPT = Raise e ->
  main float_repr env world0 = (Raise e, w)
  /\ script float_repr env world0
     = if isinstance_Exception e
       then (Ret tt,
             extend w
               [Print (py "An error occurred in main: " ++ str_exn e);
                LogException (py "An error occurred in main: " ++ str_exn e) e])
       else (Raise e, w).
Proof.
  intros w Hurl. subst w. unfold_program. rewrite Hurl. cbv beta iota.
  split; [reflexivity|]. destruct (isinstance_Exception e); reflexivity.
Qed.

(** X11: when the response of the first persona has no text, because it
    has no message ([IndexError]) or because the content of its last message
    is [None] ([AttributeError]), [main] catches the exception, logs it,
    runs no other persona and saves the empty document. *)
Theorem response_without_text_is_caught (url : text) (r : response) :
  input env URL_PROMPT = Ret url ->
  client_run env info_extractor (info_messages url) = Ret r ->
  final_text r = None ->
  exists e w,
    main float_repr env world0 = (Ret tt, w)
    /\ exn_class e = match messages r with
                     | [] => IndexError
                     | _ :: _ => AttributeError
                     end
    /\ In (LogException (py "Exception details:") e) (trace w)
    /\ calls (trace w) = [Ask URL_PROMPT; Run info_extractor]
    /\ written (trace w) = [JObj []].
Proof.
  intros Hurl Hrun Hfin. rewrite (main_run _ _ _ Hurl).
  unfold_program. rewrite Hrun. cbv beta iota.
  unfold final_text in Hfin.
  destruct (rev (messages r)) as [|m l] eqn:E.
  - assert (Hm : messages r = []).
    { rewrite <- (rev_involutive (messages r)), E. reflexivity. }
    rewrite Hm. unfold_program.
    exists {| exn_class := IndexError; exn_msg := py "list index out of range" |}.
    eexists. split; [reflexivity|]. split; [reflexivity|].
    split; [find_event|tally; split; reflexivity].
  - assert (Hm : messages r <> []).
    { intros Hm. rewrite Hm in E. discriminate. }
    destruct (messages r) as [|m0 l0]; [congruence|].
    cbv beta iota. rewrite Hfin. unfold_program.
    exists {| exn_class := AttributeError;
              exn_msg := py "'NoneType' object has no attribute 'replace'" |}.
    eexists. split; [reflexivity|]. split; [reflexivity|].
    split; [find_event|tally; split; reflexivity].
Qed.

(** X12: when the extraction of stage 1 gives [None] or the empty
    dictionary, which [main] tests alike, the run stops after the first
    persona with the notice of failure; the accumulator is empty and no file
    is written. *)
Theorem empty_or_missing_object_stops_the_run (url raw1 : text) :
  input env URL_PROMPT = Ret url ->
  answers env info_extractor (info_messages url) raw1 ->
  extracted raw1 = JNull \/ extracted raw1 = JObj [] ->
  exists w,
    main float_repr env world0 = (Ret tt, w)
    /\ calls (trace w) = [Ask URL_PROMPT; Run info_extractor]
    /\ In (Print (py "Failed to parse company info. Please check the logs and try again."))
          (trace w)
    /\ combined_output w = []
    /\ written (trace w) = [].
Proof.
  intros Hurl H1 Hv. rewrite (main_run _ _ _ Hurl).
  assert (T1 : truthy (extracted raw1) = false)
    by (destruct Hv as [-> | ->]; reflexivity).
  remember (extracted raw1) as v1.
  unfold_program. stage H1. rewrite <- Heqv1, T1. unfold_program.
  eexists. split; [reflexivity|]. split; [tally; reflexivity|].
  split; [find_event|]. split; [reflexivity|tally; reflexivity].
Qed.

(** X13: when the first three stages are done and the extraction of stage
    4 fails, [main] returns with the four entries in the accumulator and
    writes no file, whether stage 3 had succeeded or had left its
    placeholder. *)
Theorem stage4_failure_skips_the_save
    (url raw1 raw2 raw3 vendor raw4 : text) :
  let industry_challenges :=
    if truthy (extracted raw3) then extracted raw3
    else PARSE_ERROR_PLACEHOLDER in
  let d := [(py "company_info", extracted raw1);
            (py "pain_points", extracted raw2);
            (py "industry_challenges", industry_challenges);
            (py "selling_company", JStr vendor)] in
  input env URL_PROMPT = Ret url ->
  answers env info_extractor (info_messages url) raw1 ->
  truthy (extracted raw1) = true ->
  answers env pain_point_analyzer
    (pain_messages float_repr (extracted raw1)) raw2 ->
  truthy (extracted raw2) = true ->
  answers env industry_challenges_identifier
    (challenges_messages float_repr (extracted raw1) (extracted raw2)) raw3 ->
  input env VENDOR_PROMPT = Ret vendor ->
  answers env solution_reporter (solution_messages float_repr d vendor) raw4 ->
  truthy (extracted raw4) = false ->
  exists w,
    main float_repr env world0 = (Ret tt, w)
    /\ calls (trace w) = PROTOCOL
    /\ combined_output w = d
    /\ written (trace w) = [].
Proof.
  intros ic d Hurl H1 T1 H2 T2 H3 Hvendor H4 T4. subst d ic.
  rewrite (main_run _ _ _ Hurl).
  remember (extracted raw1) as v1. remember (extracted raw2) as v2.
  remember (extracted raw3) as v3. remember (extracted raw4) as v4.
  unfold_program.
  stage H1. rewrite <- Heqv1, T1. cbv beta iota.
  stage H2. rewrite <- Heqv2, T2. cbv beta iota.
  stage H3. rewrite <- Heqv3.
  destruct (truthy v3); unfold_program; rewrite Hvendor; unfold_program;
    rewrite !dict_set_fresh by reflexivity; cbn [app];
    stage H4; rewrite <- Heqv4, T4; unfold_program;
    (eexists; split; [reflexivity|]); tally; repeat split.
Qed.

(** X17: when the first three stages are done and the vendor prompt
    raises, the accumulator holds the three entries; an exception that is an
    instance of [Exception] is caught and the three entries are saved, any
    other one (the user interrupts the prompt) leaves [main] and nothing is
    written. *)
Theorem failure_of_the_vendor_prompt
    (url raw1 raw2 raw3 : text) (e : exn) :
  let industry_challenges :=
    if truthy (extracted raw3) then extracted raw3
    else PARSE_ERROR_PLACEHOLDER in
  let d := [(py "company_info", extracted raw1);
            (py "pain_points", extracted raw2);
            (py "industry_challenges", industry_challenges)] in
  input env URL_PROMPT = Ret url ->
  answers env info_extractor (info_messages url) raw1 ->
  truthy (extracted raw1) = true ->
  answers env pain_point_analyzer
    (pain_messages float_repr (extracted raw1)) raw2 ->
  truthy (extracted raw2) = true ->
  answers env industry_challenges_identifier
    (challenges_messages float_repr (extracted raw1) (extracted raw2)) raw3 ->
  input env VENDOR_PROMPT = Raise e ->
  exists w,
    main float_repr env world0
    = (if isinstance_Exception e then Ret tt else Raise e, w)
    /\ calls (trace w)
       = [Ask URL_PROMPT; Run info_extractor; Run pain_point_analyzer;
          Run industry_challenges_identifier; Ask VENDOR_PROMPT]
    /\ combined_output w = d
    /\ written (trace w) = if isinstance_Exception e then [JObj d] else [].
Proof.
  intros ic d Hurl H1 T1 H2 T2 H3 Hvendor. subst d ic.
  rewrite (main_run _ _ _ Hurl).
  remember (extracted raw1) as v1. remember (extracted raw2) as v2.
  remember (extracted raw3) as v3.
  unfold_program.
  stage H1. rewrite <- Heqv1, T1. cbv beta iota.
  stage H2. rewrite <- Heqv2, T2. cbv beta iota.
  stage H3. rewrite <- Heqv3.
  destruct (truthy v3); unfold_program; rewrite Hvendor; unfold_program;
    rewrite !dict_set_fresh by reflexivity; cbn [app];
    destruct (isinstance_Exception e);
    (eexists; split; [reflexivity|]); tally; repeat split.
Qed.

(** X14: when the four extractions succeed the prompts and the personas
    of [PROTOCOL] all come, the accumulator has the five entries, and the
    file is written twice with this document, once inside the [try]
    statement and once after it. *)
Theorem full_success_saves_twice
    (url raw1 raw2 raw3 vendor raw4 : text) :
  let d := [(py "company_info", extracted raw1);
            (py "pain_points", extracted raw2);
            (py "industry_challenges", extracted raw3);
            (py "selling_company", JStr vendor)] in
  input env URL_PROMPT = Ret url ->
  answers env info_extractor (info_messages url) raw1 ->
  truthy (extracted raw1) = true ->
  answers env pain_point_analyzer
    (pain_messages float_repr (extracted raw1)) raw2 ->
  truthy (extracted raw2) = true ->
  answers env industry_challenges_identifier
    (challenges_messages float_repr (extracted raw1) (extracted raw2)) raw3 ->
  truthy (extracted raw3) = true ->
  input env VENDOR_PROMPT = Ret vendor ->
  answers env solution_reporter (solution_messages float_repr d vendor) raw4 ->
  truthy (extracted raw4) = true ->
  exists w,
    main float_repr env world0 = (Ret tt, w)
    /\ calls (trace w) = PROTOCOL
    /\ combined_output w = d ++ [(py "solutions", extracted raw4)]
    /\ written (trace w)
       = [JObj (combined_output w); JObj (combined_output w)].
Proof.
  intros d Hurl H1 T1 H2 T2 H3 T3 Hvendor H4 T4. subst d.
  rewrite (main_run _ _ _ Hurl).
  remember (extracted raw1) as v1. remember (extracted raw2) as v2.
  remember (extracted raw3) as v3. remember (extracted raw4) as v4.
  unfold_program.
  stage H1. rewrite <- Heqv1, T1. cbv beta iota.
  stage H2. rewrite <- Heqv2, T2. cbv beta iota.
  stage H3. rewrite <- Heqv3, T3. unfold_program.
  rewrite Hvendor. unfold_program.
  rewrite !dict_set_fresh by reflexivity. cbn [app].
  stage H4. rewrite <- Heqv4, T4. unfold_program.
  rewrite !dict_set_fresh by reflexivity. cbn [app].
  eexists. split; [reflexivity|]. tally. repeat split.
Qed.

End Runs.


Lemma failure_of_the_first_prompt_witness :
  main literal_repr no_terminal world0
  = (Raise eof_error,
     extend world0
       [Log DEBUG (py "Starting main function");
        Print (py "Welcome to the IT Solutions Sales Team!");
        Input URL_PROMPT])
  /\ script literal_repr no_terminal world0
     = (Ret tt,
        extend
          (extend world0
             [Log DEBUG (py "Starting main function");
              Print (py "Welcome to the IT Solutions Sales Team!");
              Input URL_PROMPT])
          [Print (py "An error occurred in main: " ++ str_exn eof_error);
           LogException (py "An error occurred in main: " ++ str_exn eof_error)
             eof_error]).
Proof.
  apply (failure_of_the_first_prompt literal_repr no_terminal eof_error).
  reflexivity.
Defined.

Lemma response_without_text_is_caught_witness :
  exists e w,
    main literal_repr
      (scripted NO_MESSAGE (reply PAINS) (reply CHALLENGES) (reply SOLUTIONS)
         (Ret JNull)) world0 = (Ret tt, w)
    /\ exn_class e = IndexError
    /\ In (LogException (py "Exception details:") e) (trace w)
    /\ calls (trace w) = [Ask URL_PROMPT; Run info_extractor]
    /\ written (trace w) = [JObj []].
Proof.
  apply (response_without_text_is_caught literal_repr
           (scripted NO_MESSAGE (reply PAINS) (reply CHALLENGES)
              (reply SOLUTIONS) (Ret JNull))
           (py "https://acme.example") {| messages := [] |});
    reflexivity.
Defined.

Lemma empty_or_missing_object_stops_the_run_witness :
  exists w,
    main literal_repr
      (scripted (reply EMPTY_OBJECT) (reply PAINS) (reply CHALLENGES)
         (reply SOLUTIONS) (Ret JNull)) world0 = (Ret tt, w)
    /\ calls (trace w) = [Ask URL_PROMPT; Run info_extractor]
    /\ In (Print (py "Failed to parse company info. Please check the logs and try again."))
          (trace w)
    /\ combined_output w = []
    /\ written (trace w) = [].
Proof.
  apply (empty_or_missing_object_stops_the_run literal_repr
           (scripted (reply EMPTY_OBJECT) (reply PAINS) (reply CHALLENGES)
              (reply SOLUTIONS) (Ret JNull))
           (py "https://acme.example") EMPTY_OBJECT).
  - reflexivity.
  - eexists; split; reflexivity.
  - right. vm_compute. reflexivity.
Defined.

Lemma stage4_failure_skips_the_save_witness :
  exists w,
    main literal_repr
      (scripted (reply PROFILE) (reply PAINS) (reply CHALLENGES)
         (reply REFUSAL) (Ret JNull)) world0 = (Ret tt, w)
    /\ calls (trace w) = PROTOCOL
    /\ combined_output w
       = [(py "company_info", extracted PROFILE);
          (py "pain_points", extracted PAINS);
          (py "industry_challenges", extracted CHALLENGES);
          (py "selling_company", JStr (py "Initech"))]
    /\ written (trace w) = [].
Proof.
  apply (stage4_failure_skips_the_save literal_repr
           (scripted (reply PROFILE) (reply PAINS) (reply CHALLENGES)
              (reply REFUSAL) (Ret JNull))
           (py "https://acme.example") PROFILE PAINS CHALLENGES (py "Initech")
           REFUSAL);
    try reflexivity; eexists; split; reflexivity.
Defined.

Lemma full_success_saves_twice_witness :
  exists w,
    main literal_repr SUCCESS world0 = (Ret tt, w)
    /\ calls (trace w) = PROTOCOL
    /\ combined_output w
       = [(py "company_info", extracted PROFILE);
          (py "pain_points", extracted PAINS);
          (py "industry_challenges", extracted CHALLENGES);
          (py "selling_company", JStr (py "Initech"))]
         ++ [(py "solutions", extracted SOLUTIONS)]
    /\ written (trace w)
       = [JObj (combined_output w); JObj (combined_output w)].
Proof.
  apply (full_success_saves_twice literal_repr SUCCESS
           (py "https://acme.example") PROFILE PAINS CHALLENGES (py "Initech")
           SOLUTIONS);
    try reflexivity; eexists; split; reflexivity.
Defined.

Lemma failure_of_the_vendor_prompt_witness :
  exists w,
    main literal_repr INTERRUPTED_AT_VENDOR world0
    = (Raise keyboard_interrupt, w)
    /\ calls (trace w)
       = [Ask URL_PROMPT; Run info_extractor; Run pain_point_analyzer;
          Run industry_challenges_identifier; Ask VENDOR_PROMPT]
    /\ combined_output w
       = [(py "company_info", extracted PROFILE);
          (py "pain_points", extracted PAINS);
          (py "industry_challenges", extracted CHALLENGES)]
    /\ written (trace w) = [].
Proof.
  apply (failure_of_the_vendor_prompt literal_repr INTERRUPTED_AT_VENDOR
           (py "https://acme.example") PROFILE PAINS CHALLENGES
           keyboard_interrupt);
    try reflexivity; eexists; split; reflexivity.
Defined.

(* ================================================================== *)
(** * The text of the output file *)

Module FileText.
Import Decoder Encoder RoundTrip.

Lemma ascii_app (a b : text) :
  forallb is_ascii (a ++ b) = forallb is_ascii a && forallb is_ascii b.
Proof. apply forallb_app. Qed.

Lemma hexdigit_ascii (d : N) : d < 16 -> is_ascii (hexdigit d) = true.
Proof.
  intros H. unfold hexdigit, is_ascii.
  destruct (d <? 10); apply N.ltb_lt; lia.
Qed.

Lemma esc_u_ascii (u : N) : forallb is_ascii (esc_u u) = true.
Proof.
  unfold esc_u, hex4. cbn [forallb].
  rewrite !hexdigit_ascii by (apply N.mod_lt; discriminate). reflexivity.
Qed.

Lemma encode_char_ascii (c : N) : forallb is_ascii (encode_char c) = true.
Proof.
  unfold encode_char.
  repeat match goal with
         | |- context [if ?b then _ else _] => destruct b eqn:?; try reflexivity
         end.
  - cbn [forallb]. unfold is_ascii.
    apply andb_true_iff in Heqb6 as [_ H]. apply N.leb_le in H.
    rewrite andb_true_r. apply N.ltb_lt. lia.
  - apply esc_u_ascii.
  - rewrite ascii_app, !esc_u_ascii. reflexivity.
Qed.

Lemma encode_str_ascii (s : text) : forallb is_ascii (encode_str s) = true.
Proof.
  unfold encode_str.
  change (34 :: flat_map encode_char s ++ [34])
    with ([34] ++ flat_map encode_char s ++ [34]).
  rewrite !ascii_app. cbn [forallb andb is_ascii].
  replace (forallb is_ascii (flat_map encode_char s)) with true; [reflexivity|].
  symmetry. induction s as [|c s IH]; [reflexivity|].
  cbn [flat_map]. now rewrite ascii_app, encode_char_ascii, IH.
Qed.

Lemma digits_ascii (l : text) :
  Forall (fun c => 48 <= c /\ c <= 57) l -> forallb is_ascii l = true.
Proof.
  induction 1 as [|c l [H1 H2] _ IH]; [reflexivity|]. cbn [forallb].
  rewrite IH, andb_true_r. apply N.ltb_lt. lia.
Qed.

Lemma str_of_Z_ascii (z : Z) : forallb is_ascii (str_of_Z z) = true.
Proof.
  unfold str_of_Z, str_of_N.
  destruct z; cbn [forallb]; rewrite ?digits_ascii;
    try reflexivity; apply digits_fuel_digits.
Qed.

Lemma newline_indent_ascii (level : nat) :
  forallb is_ascii (newline_indent level) = true.
Proof.
  unfold newline_indent. cbn [forallb andb is_ascii].
  induction (2 * level)%nat as [|n IH]; [reflexivity|exact IH].
Qed.

Lemma dumps_indent_ascii (float_repr : text -> text) (v : json) :
  floats_ascii float_repr v = true ->
  forall level, forallb is_ascii (dumps_indent float_repr level v) = true.
Proof.
  unfold floats_ascii.
  induction v as [|b|z|lit|s|l IH|d IH] using json_induction;
    intros Hv level.
  - reflexivity.
  - destruct b; reflexivity.
  - apply str_of_Z_ascii.
  - cbn [json_all] in Hv. now rewrite andb_true_r in Hv.
  - apply encode_str_ascii.
  - destruct l as [|x l]; [reflexivity|].
    cbn [dumps_indent]. fold (indent_items float_repr (S level) (x :: l)).
    apply json_all_items in Hv.
    assert (Hitems : forallb is_ascii
                       (indent_items float_repr (S level) (x :: l)) = true).
    { induction IH as [|y l' Hy _ IHl]; [reflexivity|].
      inversion Hv as [|? ? Hvy Hvl]; subst.
      destruct l' as [|z l']; [now apply Hy|].
      change (indent_items float_repr (S level) (y :: z :: l'))
        with (dumps_indent float_repr (S level) y
              ++ [44] ++ newline_indent (S level)
              ++ indent_items float_repr (S level) (z :: l')).
      now rewrite !ascii_app, Hy, newline_indent_ascii, IHl. }
    change (91 :: ?a) with ([91] ++ a).
    now rewrite !ascii_app, !newline_indent_ascii, Hitems.
  - destruct d as [|kv d]; [reflexivity|].
    cbn [dumps_indent]. fold (indent_members float_repr (S level) (kv :: d)).
    apply json_all_members in Hv.
    assert (Hmembers : forallb is_ascii
                         (indent_members float_repr (S level) (kv :: d)) = true).
    { induction IH as [|[k y] d' Hy _ IHd]; [reflexivity|]. cbn [snd] in Hy.
      inversion Hv as [|? ? Hvy Hvd]; subst. cbn [snd] in Hvy.
      destruct d' as [|z d'].
      - cbn [indent_members]. now rewrite !ascii_app, encode_str_ascii, Hy.
      - change (indent_members float_repr (S level) ((k, y) :: z :: d'))
          with (encode_str k ++ [58; 32]
                ++ dumps_indent float_repr (S level) y
                ++ [44] ++ newline_indent (S level)
                ++ indent_members float_repr (S level) (z :: d')).
        now rewrite !ascii_app, encode_str_ascii, Hy, newline_indent_ascii,
          IHd. }
    change (LBRACE :: ?a) with ([LBRACE] ++ a).
    now rewrite !ascii_app, !newline_indent_ascii, Hmembers.
Qed.

(** ** Reading the text back *)

(** States that stay as they are on white space. *)
Definition waits (lx : lex) : bool :=
  match lx with
  | LValue | LArrFirst | LObjFirst | LObjKey | LColon _ | LAfter _ => true
  | _ => false
  end.

Lemma run_white (lx : lex) (K : list frame) (s : text) :
  waits lx = true -> forallb is_ws s = true -> run (lx, K) s = (lx, K).
Proof.
  intros Hw. induction s as [|c s IH]; [reflexivity|]. cbn [forallb].
  intros H. apply andb_true_iff in H as [Hc Hs].
  rewrite DecoderShape.run_cons.
  replace (step (lx, K) c) with (lx, K); [now apply IH|].
  destruct lx; try discriminate Hw; cbn [step]; unfold after_value;
    now rewrite Hc.
Qed.

Lemma newline_indent_white (level : nat) :
  forallb is_ws (newline_indent level) = true.
Proof.
  unfold newline_indent. cbn [forallb andb].
  change (is_ws 10) with true. cbn [andb].
  induction (2 * level)%nat as [|n IH]; [reflexivity|exact IH].
Qed.

Lemma run_newline_indent (lx : lex) (K : list frame) (level : nat) :
  waits lx = true -> run (lx, K) (newline_indent level) = (lx, K).
Proof. intros H. apply (run_white _ _ _ H), newline_indent_white. Qed.

(** After a value, the line break ends it. *)
Lemma delivers_newline (st : state) (v : json) (K : list frame)
    (level : nat) :
  delivers st v K -> run st (newline_indent level) = (LAfter v, K).
Proof.
  intros [Hstep _]. unfold newline_indent. rewrite DecoderShape.run_cons.
  rewrite Hstep by reflexivity.
  change (after_value v K 10) with (LAfter v, K).
  apply run_white; [reflexivity|].
  induction (2 * level)%nat as [|n IH]; [reflexivity|exact IH].
Qed.

Section ReadBack.

Variable float_repr : text -> text.

Lemma dumps_indent_head (level : nat) (v : json) :
  no_float v = true ->
  exists c rest, dumps_indent float_repr level v = c :: rest
                 /\ is_ws c = false /\ (c =? 93) = false.
Proof.
  intros Hf. destruct v as [| | | | |[|x l]|[|kv d]];
    try exact (dumps_head float_repr _ Hf);
    eexists _, _; (split; [reflexivity|split; reflexivity]).
Qed.

Lemma step_first_indented (level : nat) (v : json) (K : list frame)
    (rest : text) :
  no_float v = true ->
  run (LArrFirst, K) (dumps_indent float_repr level v ++ rest)
  = run (LValue, K) (dumps_indent float_repr level v ++ rest).
Proof.
  intros Hf. destruct (dumps_indent_head level v Hf) as (c & r & -> & H1 & H2).
  cbn [app]. rewrite !DecoderShape.run_cons. cbn [step].
  now rewrite H1, H2.
Qed.

(** [v] is read back from its indented text at every depth and in every
    context. *)
Definition reads_back_indented (v : json) : Prop :=
  forall level K,
    delivers (run (LValue, K) (dumps_indent float_repr level v)) v K.

Lemma run_indent_items (level close : nat) (l : list json) :
  l <> [] ->
  Forall reads_back_indented l -> Forall (fun x => no_float x = true) l ->
  forall (acc : list json) (K : list frame) (lx : lex),
    lx = LValue \/ lx = LArrFirst ->
    run (lx, FArr acc :: K)
        (indent_items float_repr level l ++ newline_indent close ++ [93])
    = (LAfter (JArr (acc ++ l)), K).
Proof.
  induction l as [|x l IH]; intros Hne Hall Hnf acc K lx Hlx; [congruence|].
  inversion Hall as [|? ? Hx Hl]; subst.
  inversion Hnf as [|? ? Hfx Hfl]; subst.
  assert (Hstart : forall rest,
             run (lx, FArr acc :: K) (dumps_indent float_repr level x ++ rest)
             = run (run (LValue, FArr acc :: K)
                      (dumps_indent float_repr level x)) rest).
  { intros rest. destruct Hlx as [-> | ->].
    - apply DecoderShape.run_app.
    - rewrite (step_first_indented _ _ _ _ Hfx). apply DecoderShape.run_app. }
  pose proof (Hx level (FArr acc :: K)) as Hd.
  destruct l as [|y l].
  - cbn [indent_items]. rewrite Hstart, DecoderShape.run_app.
    rewrite (delivers_newline _ _ _ close Hd). reflexivity.
  - change (indent_items float_repr level (x :: y :: l))
      with (dumps_indent float_repr level x
            ++ 44 :: newline_indent level
            ++ indent_items float_repr level (y :: l)).
    rewrite <- !app_assoc, Hstart. cbn [app].
    rewrite DecoderShape.run_cons. destruct Hd as [Hstep _].
    rewrite Hstep by reflexivity.
    change (after_value x (FArr acc :: K) 44)
      with (LValue, FArr (acc ++ [x]) :: K).
    rewrite <- app_assoc, DecoderShape.run_app.
    rewrite run_newline_indent by reflexivity.
    rewrite (IH ltac:(discriminate) Hl Hfl (acc ++ [x]) K LValue) by now left.
    now rewrite <- app_assoc.
Qed.

Lemma run_indent_members (level close : nat) (d : pydict) :
  d <> [] ->
  Forall (fun kv => reads_back_indented (snd kv)) d ->
  Forall (fun kv => valid_text (fst kv) = true /\ pairs_free (fst kv) = true) d ->
  forall (acc : pydict) (K : list frame) (lx : lex),
    lx = LObjFirst \/ lx = LObjKey ->
    run (lx, FObjK acc :: K)
        (indent_members float_repr level d ++ newline_indent close ++ [RBRACE])
    = (LAfter (JObj (dict_of_pairs (acc ++ d))), K).
Proof.
  induction d as [|[k x] d IH]; intros Hne Hall Hkeys acc K lx Hlx;
    [congruence|].
  inversion Hall as [|? ? Hx Hd]; subst. cbn [snd] in Hx.
  inversion Hkeys as [|? ? [Hk1 Hk2] Hkd]; subst. cbn [fst] in Hk1, Hk2.
  assert (Hkey : forall rest,
             run (lx, FObjK acc :: K)
                 (encode_str k ++ [58; 32]
                  ++ dumps_indent float_repr level x ++ rest)
             = run (run (LValue, FObjV acc k :: K)
                      (dumps_indent float_repr level x)) rest).
  { intros rest. rewrite DecoderShape.run_app.
    rewrite (run_string true (FObjK acc :: K) k lx Hk1 Hk2)
      by (destruct Hlx as [-> | ->]; reflexivity).
    cbn [app str_done]. rewrite !DecoderShape.run_cons.
    change (step (step (LColon k, FObjK acc :: K) 58) 32)
      with (LValue, FObjV acc k :: K).
    apply DecoderShape.run_app. }
  pose proof (Hx level (FObjV acc k :: K)) as Hv.
  destruct d as [|y d].
  - change (indent_members float_repr level [(k, x)])
      with (encode_str k ++ [58; 32] ++ dumps_indent float_repr level x).
    rewrite <- !app_assoc, Hkey, DecoderShape.run_app.
    rewrite (delivers_newline _ _ _ close Hv). reflexivity.
  - change (indent_members float_repr level ((k, x) :: y :: d))
      with (encode_str k ++ [58; 32] ++ dumps_indent float_repr level x
            ++ 44 :: newline_indent level
            ++ indent_members float_repr level (y :: d)).
    rewrite <- !app_assoc, Hkey. cbn [app].
    rewrite DecoderShape.run_cons. destruct Hv as [Hstep _].
    rewrite Hstep by reflexivity.
    change (after_value x (FObjV acc k :: K) 44)
      with (LObjKey, FObjK (acc ++ [(k, x)]) :: K).
    rewrite <- app_assoc, DecoderShape.run_app.
    rewrite run_newline_indent by reflexivity.
    rewrite (IH ltac:(discriminate) Hd Hkd (acc ++ [(k, x)]) K LObjKey)
      by now right.
    now rewrite <- app_assoc.
Qed.

Lemma run_indented_value (v : json) :
  python_value v = true -> float_free v = true -> unpaired v = true ->
  reads_back_indented v.
Proof.
  induction v as [|b|z|lit|s|l IH|d IH] using json_induction;
    intros Hv Hf Hu level K;
    try exact (run_value float_repr _ Hv Hf Hu K).
  - destruct l as [|x l]; [exact (run_value float_repr _ Hv Hf Hu K)|].
    cbn [dumps_indent]. fold (indent_items float_repr (S level) (x :: l)).
    rewrite DecoderShape.run_cons.
    change (step (LValue, K) 91) with (LArrFirst, FArr [] :: K).
    rewrite DecoderShape.run_app, run_newline_indent by reflexivity.
    rewrite (run_indent_items (S level) level (x :: l));
      [apply delivers_after|discriminate| | |now right].
    + apply json_all_items in Hv, Hf, Hu.
      rewrite Forall_forall in *. intros y Hy. apply IH; auto.
    + apply json_all_items in Hf. rewrite Forall_forall in *.
      intros y Hy. now apply (json_all_here float_repr), Hf.
  - destruct d as [|kv d]; [exact (run_value float_repr _ Hv Hf Hu K)|].
    cbn [dumps_indent]. fold (indent_members float_repr (S level) (kv :: d)).
    rewrite DecoderShape.run_cons.
    change (step (LValue, K) LBRACE) with (LObjFirst, FObjK [] :: K).
    rewrite DecoderShape.run_app, run_newline_indent by reflexivity.
    pose proof (json_all_here float_repr _ _ Hv) as Hnode.
    pose proof (json_all_here float_repr _ _ Hu) as Hnode'.
    cbn [node_valid node_unpaired] in Hnode, Hnode'.
    apply andb_true_iff in Hnode as [Hdist Hkeys].
    rewrite (run_indent_members (S level) level (kv :: d));
      [|discriminate| | |now left].
    + cbn [app]. rewrite (dict_of_pairs_distinct _ Hdist).
      apply delivers_after.
    + apply json_all_members in Hv, Hf, Hu.
      rewrite Forall_forall in *. intros y Hy. apply IH; auto.
    + rewrite Forall_forall. intros y Hy. split.
      * now apply (proj1 (forallb_forall _ _) Hkeys y).
      * now apply (proj1 (forallb_forall _ _) Hnode' y).
Qed.

Lemma loads_dump_text (doc : json) :
  python_value doc = true -> float_free doc = true -> unpaired doc = true ->
  loads (dump_text float_repr doc) = Ret doc.
Proof.
  intros Hv Hf Hu. unfold loads, dump_text.
  destruct (run_indented_value doc Hv Hf Hu 0%nat []) as [_ Hfin]. exact Hfin.
Qed.

End ReadBack.

End FileText.

(** X15: the text written into the output file has ASCII characters only,
    whatever the replies held, as soon as the floats are written with such
    characters. *)
Theorem saved_file_is_ascii (float_repr : text -> text) (env : environment)
    (t : text) :
  let w := snd (main float_repr env world0) in
  file_text float_repr w = Some t ->
  floats_ascii float_repr (JObj (combined_output w)) = true ->
  forallb is_ascii t = true.
Proof.
  intros w Ht Hf. unfold file_text in Ht.
  destruct (persisted w) as [doc|] eqn:E; [|discriminate].
  apply persisted_accumulator in E. fold w in E. subst doc.
  injection Ht as <-. now apply FileText.dumps_indent_ascii.
Qed.

Lemma saved_file_is_ascii_witness :
  forallb is_ascii
    (dump_text literal_repr
       (JObj (combined_output (snd (main literal_repr SUCCESS world0)))))
  = true.
Proof.
  apply (saved_file_is_ascii literal_repr SUCCESS); vm_compute; reflexivity.
Defined.

(** X16: the text written into the output file is read back by
    [json.loads] as the accumulator, when the accumulator is a Python
    object without floats and without a high surrogate followed by a low
    one. *)
Theorem saved_file_reads_back (float_repr : text -> text) (env : environment)
    (t : text) :
  let w := snd (main float_repr env world0) in
  let doc := JObj (combined_output w) in
  file_text float_repr w = Some t ->
  python_value doc = true -> float_free doc = true -> unpaired doc = true ->
  loads t = Ret doc.
Proof.
  intros w doc Ht Hv Hf Hu. unfold file_text in Ht.
  destruct (persisted w) as [doc'|] eqn:E; [|discriminate].
  apply persisted_accumulator in E. fold w in E. subst doc'.
  injection Ht as <-. now apply FileText.loads_dump_text.
Qed.

Lemma saved_file_reads_back_witness :
  loads (dump_text literal_repr
           (JObj (combined_output (snd (main literal_repr SUCCESS world0)))))
  = Ret (JObj (combined_output (snd (main literal_repr SUCCESS world0)))).
Proof.
  apply (saved_file_reads_back literal_repr SUCCESS); vm_compute; reflexivity.
Defined.
